(** * Quiz-chain solver: a shallow embedding of [aap/utils.py] and
      [aap/worker.py]

    The development follows the two source files.  Python values are
    embedded as follows.

    - Text ([str]) is a [string]; its characters are the code points below
      256, which is where the patterns of the source (ASCII literals, white
      space, ASCII case folding) live.  [bytes] are strings of octets.
    - JSON values, and the Python values built from them, are the type
      [json]; [None] is [JNull], and a [dict] is a [gmap string json].
    - Numbers are the rationals they denote ([Q], kept in lowest terms);
      binary64 rounding of sums and overflow to infinity are outside the
      model.
    - The libraries the source calls (json, base64, pandas, urllib) are the
      fields of the class [PyLib]; the network and the browser are the
      fields of the class [Env], which answer as a function of the event
      history, so every run of the program in which the browser and the
      HTTP client start is a run of the model for some [Env].  The start
      itself, which may fail, is the class [Launcher]. *)

From Stdlib Require Import ZArith QArith Ascii String Lia.
From stdpp Require Import gmap strings list fin_maps pretty.

Set Warnings "-register-all".
Set Warnings "-automation".

Open Scope string_scope.

(** ** Python values *)

Inductive json : Type :=
  | JNull
  | JBool (b : bool)
  | JNum (q : Q)
  | JStr (s : string)
  | JArr (l : list json)
  | JObj (m : gmap string json).

Abbreviation dict := (gmap string json).

(** Python truth value of a JSON-shaped object. *)
Definition truthy (v : json) : bool :=
  match v with
  | JNull => false
  | JBool b => b
  | JNum q => negb (Qeq_bool q 0)
  | JStr s => negb (String.eqb s "")
  | JArr l => match l with [] => false | _ => true end
  | JObj m => negb (bool_decide (m = ∅))
  end.

(** [a or b] *)
Definition py_or (a b : json) : json := if truthy a then a else b.

(** [d.get(k)], with [None] as the default. *)
Definition dict_get (d : dict) (k : string) : json := default JNull (d !! k).

(** [d.get(k, dflt)] *)
Definition dict_get_default (d : dict) (k : string) (dflt : json) : json :=
  default dflt (d !! k).

(** [k in d] *)
Definition dict_has (d : dict) (k : string) : bool := bool_decide (is_Some (d !! k)).

(** [x is None] *)
Definition is_none (v : json) : bool :=
  match v with JNull => true | _ => false end.

(** [isinstance(v, (int, float, str))]; [bool] is a subclass of [int]. *)
Definition is_scalar (v : json) : bool :=
  match v with JBool _ | JNum _ | JStr _ => true | _ => false end.

(** Truth value of an optional dict, as in [if parsed_json and ...]. *)
Definition truthy_dict (o : option dict) : bool :=
  match o with Some d => truthy (JObj d) | None => false end.

(** Truth value of an optional string, as in [if decoded]. *)
Definition truthy_str (o : option string) : bool :=
  match o with Some s => negb (String.eqb s "") | None => false end.

(** ** Text primitives *)

Definition code (c : ascii) : nat := nat_of_ascii c.

Definition in_range (lo hi : nat) (c : ascii) : bool :=
  (lo <=? code c)%nat && (code c <=? hi)%nat.

(** [\d] *)
Definition is_digit (c : ascii) : bool := in_range 48 57 c.

(** [A-Za-z] *)
Definition is_alpha (c : ascii) : bool := in_range 65 90 c || in_range 97 122 c.

(** [\s] and [str.isspace] on the code points below 256. *)
Definition is_space (c : ascii) : bool :=
  in_range 9 13 c || in_range 28 32 c || (code c =? 133)%nat || (code c =? 160)%nat.

Definition is_quote (c : ascii) : bool := (code c =? 39)%nat || (code c =? 34)%nat.

(** [str.lower] on one character: ASCII and Latin-1 capitals. *)
Definition lower_char (c : ascii) : ascii :=
  if in_range 65 90 c || (in_range 192 222 c && negb (code c =? 215)%nat)
  then ascii_of_nat (code c + 32) else c.

Fixpoint lower (s : string) : string :=
  match s with
  | EmptyString => EmptyString
  | String c r => String (lower_char c) (lower r)
  end.

(** [sub in s] *)
Definition contains (sub s : string) : bool :=
  match index 0 sub s with Some _ => true | None => false end.

(** [s.startswith(p)] *)
Definition startswith (p s : string) : bool := String.prefix p s.

(** [s.endswith(p)] *)
Definition endswith (p s : string) : bool :=
  (String.length p <=? String.length s)%nat
  && String.eqb (substring (String.length s - String.length p) (String.length p) s) p.

(** [s[i:j]] for [0 <= i <= j]. *)
Definition slice (s : string) (i j : nat) : string := substring i (j - i) s.

(** [s.find(c)] for a one-character needle; [None] stands for -1. *)
Fixpoint find_char (c : ascii) (s : string) : option nat :=
  match s with
  | EmptyString => None
  | String a r => if Ascii.eqb a c then Some 0%nat else S <$> find_char c r
  end.

(** Longest prefix whose characters satisfy [p], and the rest. *)
Fixpoint span (p : ascii -> bool) (s : string) : string * string :=
  match s with
  | EmptyString => (EmptyString, EmptyString)
  | String c r =>
      if p c then let '(a, b) := span p r in (String c a, b)
      else (EmptyString, s)
  end.

Fixpoint drop_str (n : nat) (s : string) : string :=
  match n, s with
  | S n', String _ r => drop_str n' r
  | _, _ => s
  end.

Fixpoint filter_str (p : ascii -> bool) (s : string) : string :=
  match s with
  | EmptyString => EmptyString
  | String c r => if p c then String c (filter_str p r) else filter_str p r
  end.

Fixpoint rev_str (acc s : string) : string :=
  match s with
  | EmptyString => acc
  | String c r => rev_str (String c acc) r
  end.

Definition lstrip (s : string) : string := snd (span is_space s).

(** [s.strip()] *)
Definition strip (s : string) : string :=
  rev_str "" (lstrip (rev_str "" (lstrip s))).

(** [re.findall] / [re.finditer] for a pattern given by its matcher at one
    position: [m s] is the match that starts at the head of [s] (its value
    and the text after it), if there is one.  Matches are taken leftmost
    and do not overlap; every match of the patterns below is non-empty. *)
Fixpoint findall {A} (m : string -> option (A * string)) (fuel : nat) (s : string)
  : list A :=
  match fuel with
  | O => []
  | S fuel' =>
      match s with
      | EmptyString => []
      | String _ r =>
          match m s with
          | Some (a, rest) => a :: findall m fuel' rest
          | None => findall m fuel' r
          end
      end
  end.

(** [re.search]: the first match. *)
Definition search {A} (m : string -> option (A * string)) (s : string) : option A :=
  head (findall m (String.length s) s).

(** ** Numbers *)

Definition digit_val (c : ascii) : Z := Z.of_nat (code c) - 48.

Fixpoint digits_val (acc : Z) (s : string) : Z :=
  match s with
  | EmptyString => acc
  | String c r => digits_val (10 * acc + digit_val c) r
  end.

(** [float(tok)] for a token of the shape [-?\d+(\.\d+)?]: the rational the
    decimal numeral denotes. *)
Definition float_of_token (tok : string) : Q :=
  let '(neg, body) :=
    match tok with
    | String c r => if (code c =? 45)%nat then (true, r) else (false, tok)
    | EmptyString => (false, tok)
    end in
  let '(ip, rest) := span is_digit body in
  let fp := match rest with String _ f => f | EmptyString => EmptyString end in
  let n := digits_val 0 (ip ++ fp) in
  let d := Z.to_pos (10 ^ Z.of_nat (String.length fp)) in
  Qred (Qmake (if neg then - n else n) d).

(** [sum(nums)]: addition from the left, starting at 0.  The floats of
    the source are modelled by the rationals they stand for, and their sum
    is exact: the rounding of binary64 and its overflow to infinity (a sum
    beyond its range, which the JSON encoder of the post then refuses) are
    outside the model.  A number of that size is left to the environment:
    [env_post] may answer any post with an exception. *)
Definition py_sum (nums : list Q) : Q :=
  fold_left (fun acc x => Qred (acc + x)) nums 0%Q.

(** ** Tables (pandas) *)

(** A cell of a parsed table: a number, a text, or a missing value. *)
Inductive cell : Type :=
  | CNum (q : Q)
  | CStr (s : string)
  | CNaN.

(** A column label: text, or an integer position when the table has no
    header row. *)
Inductive label : Type :=
  | LStr (s : string)
  | LInt (z : Z).

(** A [DataFrame]: its columns in order, each with its label. *)
Definition dataframe : Type := list (label * list cell).

(** [str(c)] for a column label, as the f-strings of the source print it. *)
Definition label_str (c : label) : string :=
  match c with
  | LStr s => s
  | LInt z => pretty z
  end.

(** [c == name] for a column label and a text. *)
Definition label_is (name : string) (c : label) : bool :=
  match c with
  | LStr s => String.eqb s name
  | LInt _ => false
  end.

(** [a == b] for two column labels. *)
Definition eq_label (a b : label) : bool :=
  match a, b with
  | LStr s, LStr t => String.eqb s t
  | LInt x, LInt y => Z.eqb x y
  | _, _ => false
  end.

(** [df[c]]: the columns that carry the label [c], in order.  One column
    is a [Series]; several columns with the same label are a [DataFrame];
    none is a [KeyError]. *)
Definition df_getitem (df : dataframe) (c : label) : list (list cell) :=
  snd <$> List.filter (fun col => eq_label c (fst col)) df.

(** [Series.sum()] with [skipna=True]: missing values count for nothing. *)
Definition nansum (xs : list (option Q)) : Q := py_sum (omap id xs).

(** ** The libraries the source calls

    What the program gets from json, base64, pandas and urllib.  A raised
    exception is [None]. *)
Class PyLib : Type := {
  (** [json.loads] on a text whose first character is an opening brace: the
      decoded object (always a dict for such a text), or a raise. *)
  json_loads : string -> option dict;
  (** [json.dumps] *)
  json_dumps : dict -> string;
  (** [base64.b64decode(block).decode('utf-8', errors='ignore')] *)
  b64decode_utf8 : string -> option string;
  (** [content.decode('utf-8', errors='ignore')] *)
  utf8_decode_ignore : string -> string;
  (** [float(s)] of an arbitrary cell text, as [astype(float)] applies it. *)
  py_float : string -> option Q;
  (** [pd.to_numeric] on one cell text. *)
  pd_to_numeric : string -> option Q;
  (** [pd.read_html] *)
  pd_read_html : string -> option (list dataframe);
  (** [pd.read_csv(io.BytesIO(content))] *)
  pd_read_csv : string -> option dataframe;
  (** [pd.read_excel(io.BytesIO(content))] *)
  pd_read_excel : string -> option dataframe;
  (** [urllib.parse.urljoin] *)
  urljoin : string -> string -> string;
}.

(** ** [aap/utils.py] *)

Section Utils.
Context {lib : PyLib}.

(** [number_re = re.compile(r'-?\d+(?:\.\d+)?')], as its match at the head
    of a text: the token and what follows it. *)
Definition number_re (s : string) : option (string * string) :=
  let '(sign, s1) :=
    match s with
    | String c r => if (code c =? 45)%nat then (String c EmptyString, r) else (EmptyString, s)
    | EmptyString => (EmptyString, s)
    end in
  let '(ds, s2) := span is_digit s1 in
  match ds with
  | EmptyString => None
  | _ =>
      match s2 with
      | String c r =>
          if (code c =? 46)%nat then
            let '(fs, s3) := span is_digit r in
            match fs with
            | EmptyString => Some (sign ++ ds, s2)
            | _ => Some (sign ++ ds ++ String c fs, s3)
            end
          else Some (sign ++ ds, s2)
      | EmptyString => Some (sign ++ ds, s2)
      end
  end.

Definition extract_numbers (text : string) : list Q :=
  float_of_token <$> findall number_re (String.length text) text.

(** The loop [for end in range(len(text), start, -1)], counted by the
    length [n = end - start] of the candidate. *)
Fixpoint try_slices (text : string) (start n : nat) : option dict :=
  match n with
  | O => None
  | S n' =>
      match json_loads (slice text start (start + n)) with
      | Some obj => Some obj
      | None => try_slices text start n'
      end
  end.

Definition try_parse_json_from_text (text : string) : option dict :=
  match find_char "{" text with
  | None => None
  | Some start => try_slices text start (String.length text - start)
  end.

(** [[A-Za-z0-9+/=\s]] *)
Definition is_b64_char (c : ascii) : bool :=
  is_alpha c || is_digit c || (code c =? 43)%nat || (code c =? 47)%nat
  || (code c =? 61)%nat || is_space c.

(** [([A-Za-z0-9+/=\s]{100,})] at the head of a text. *)
Definition b64_block_re (s : string) : option (string * string) :=
  let '(run, rest) := span is_b64_char s in
  if (100 <=? String.length run)%nat then Some (run, rest) else None.

Definition decode_base64_block (text : string) : option string :=
  match search b64_block_re text with
  | None => None
  | Some g1 =>
      let block := filter_str (fun c => negb (is_space c)) g1 in
      b64decode_utf8 block
  end.

(** [df[c].astype(float)]: every text cell must read as a float. *)
Definition astype_float (cells : list cell) : option (list (option Q)) :=
  mapM (fun c => match c with
                 | CNum q => Some (Some q)
                 | CStr s => Some <$> py_float s
                 | CNaN => Some None
                 end) cells.

(** [[^\d\.\-]] *)
Definition is_not_numeric_char (c : ascii) : bool :=
  negb (is_digit c || (code c =? 46)%nat || (code c =? 45)%nat).

(** [pd.to_numeric] with [errors='coerce'] of the column after
    [.str.replace] has deleted every character of [[^\d\.\-]]: the [.str]
    accessor turns every cell that is not a text into a missing value. *)
Definition strip_and_coerce (cells : list cell) : list (option Q) :=
  (fun c => match c with
            | CStr s => pd_to_numeric (filter_str (fun a => negb (is_not_numeric_char a)) s)
            | _ => None
            end) <$> cells.

(** The branch of [sum_dataframe_column] taken when the name is a column. *)
Definition sum_column_cells (cells : list cell) : Q :=
  match astype_float cells with
  | Some xs => nansum xs
  | None => nansum (strip_and_coerce cells)
  end.

(** [{c.lower(): c for c in df.columns}]: [None] when a label is not a
    text ([c.lower()] raises); a later column replaces an earlier one with
    the same key. *)
Fixpoint lower_index (cols : list label) (acc : gmap string string)
  : option (gmap string string) :=
  match cols with
  | [] => Some acc
  | LStr s :: rest => lower_index rest (<[lower s := s]> acc)
  | LInt _ :: _ => None
  end.

(** The first branch of [sum_dataframe_column] on [df[col_name]].  On a
    [Series] it is the sum of the column.  On a [DataFrame] (a label that
    several columns carry) [float(...)] raises on the Series of the sums,
    or [astype] raises before it, and the handler raises in its turn:
    a [DataFrame] has no [.str]. *)
Definition sum_selection (sel : list (list cell)) : option json :=
  match sel with
  | [cells] => Some (JNum (sum_column_cells cells))
  | _ => None
  end.

(** [sum_dataframe_column(df, col_name)]: [None] is a raised exception,
    [Some JNull] the value [None].  The recursive call of the source is on
    a label of [df.columns], so it returns or raises in its first branch. *)
Definition sum_dataframe_column (df : dataframe) (col_name : string) : option json :=
  match df_getitem df (LStr col_name) with
  | (_ :: _) as sel => sum_selection sel
  | [] =>
      match lower_index (fst <$> df) ∅ with
      | None => None
      | Some low =>
          match low !! lower col_name with
          | Some c =>
              match df_getitem df (LStr c) with
              | (_ :: _) as sel => sum_selection sel
              | [] => Some JNull
              end
          | None => Some JNull
          end
      end
  end.

Definition parse_table_html_to_df (html : string) : option dataframe :=
  match pd_read_html html with
  | Some (df :: _) => Some df
  | Some [] => None
  | None => None
  end.

Definition parse_csv_bytes (content : string) : option dataframe := pd_read_csv content.

Definition parse_excel_bytes (content : string) : option dataframe := pd_read_excel content.

End Utils.

(** ** The world: network, browser and clock *)

Inductive resource : Type :=
  | Playwright | Browser | BrowserContext | Page | HttpClient.

(** What the program does to the world, in order. *)
Inductive event : Type :=
  | EvTime                               (* time.time() *)
  | EvAcquire (r : resource)
  | EvClose (r : resource)
  | EvGoto (url : json)                  (* page.goto, page.content, page.inner_text *)
  | EvGet (url : string)                 (* http_client.get *)
  | EvPost (url : json) (payload : dict) (* http_client.post *).

(** The HTTP response to a post: [r.status_code], [r.text] and [r.json()]
    ([None] when the body is not JSON and [r.json()] raises). *)
Record response : Type := {
  status_code : Z;
  resp_text : string;
  resp_json : option json;
}.

(** The answers of the world, each a function of the history so far.  A
    raised exception is [inl] of its text. *)
Class Env : Type := {
  (** [time.time()] *)
  env_time : list event -> Z;
  (** [page.goto(url, wait_until='networkidle')] followed by
      [page.content()] and [page.inner_text('body')]: the markup and the
      visible text. *)
  env_render : list event -> string -> string + (string * string);
  (** [http_client.get(url)] with [raise_for_status()]: the body. *)
  env_get : list event -> string -> string + string;
  (** [http_client.post(url, json=payload)] *)
  env_post : list event -> json -> dict -> string + response;
}.

(** [aap/config.py] *)
Class Config : Type := {
  EMAIL : string;
  TIMEOUT_SECONDS : Z;
}.

Definition eq_resource (a b : resource) : bool :=
  match a, b with
  | Playwright, Playwright | Browser, Browser | BrowserContext, BrowserContext
  | Page, Page | HttpClient, HttpClient => true
  | _, _ => false
  end.

(** What the close of [closed] releases: the resource itself and what
    lives under it.  Leaving the Playwright context manager stops the
    driver, and with it the browser, its contexts and their pages; closing
    a browser closes its contexts and pages; closing a context closes its
    pages.  The HTTP client is released by its own close only. *)
Definition releases (closed r : resource) : bool :=
  eq_resource r closed
  || match closed, r with
     | Playwright, (Browser | BrowserContext | Page) => true
     | Browser, (BrowserContext | Page) => true
     | BrowserContext, Page => true
     | _, _ => false
     end.

(** Whether a resource is held after a history: its last acquire, or the
    last close that releases it, decides. *)
Fixpoint held_from (r : resource) (h : bool) (log : list event) : bool :=
  match log with
  | [] => h
  | EvAcquire r' :: rest => held_from r (if eq_resource r r' then true else h) rest
  | EvClose r' :: rest => held_from r (if releases r' r then false else h) rest
  | _ :: rest => held_from r h rest
  end.

Definition held (r : resource) (log : list event) : bool := held_from r false log.

(** ** Computations: a history threaded through, and exceptions *)

Definition M (A : Type) : Type := list event -> (string + A) * list event.

Definition ret {A} (a : A) : M A := fun log => (inr a, log).

Definition raise {A} (msg : string) : M A := fun log => (inl msg, log).

Definition bind {A B} (c : M A) (k : A -> M B) : M B :=
  fun log =>
    match c log with
    | (inr a, log') => k a log'
    | (inl e, log') => (inl e, log')
    end.

(** [try: c  except Exception as e: h e] *)
Definition try_except {A} (c : M A) (h : string -> M A) : M A :=
  fun log =>
    match c log with
    | (inr a, log') => (inr a, log')
    | (inl e, log') => h e log'
    end.

Definition emit (e : event) : M unit := fun log => (inr tt, (log ++ [e])%list).

Notation "x <~ c ; k" := (bind c (fun x => k))
  (at level 20, c at level 99, k at level 200, only parsing).
Notation "' x <~ c ; k" := (bind c (fun x => k))
  (at level 20, x pattern, c at level 99, k at level 200, only parsing).
Notation "c ;;; k" := (bind c (fun _ => k))
  (at level 100, k at level 200, right associativity, only parsing).

(** ** The patterns of [aap/worker.py]

    Each pattern is given by its match at the head of a text, following the
    leftmost, greedy, backtracking reading of [re]. *)

(** The class of the URL pattern: any character but white space, the two
    quote characters, [<] and [>]. *)
Definition is_url_char (c : ascii) : bool :=
  negb (is_space c || is_quote c || (code c =? 60)%nat || (code c =? 62)%nat).

(** The URL pattern: [http], an optional [s], [://], then one or more
    characters of the class above. *)
Definition url_re (s : string) : option (string * string) :=
  let scheme :=
    if startswith "https://" s then Some 8%nat
    else if startswith "http://" s then Some 7%nat
    else None in
  match scheme with
  | None => None
  | Some n =>
      let '(body, rest) := span is_url_char (drop_str n s) in
      match body with
      | EmptyString => None
      | _ => Some (substring 0 n s ++ body, rest)
      end
  end.

(** The anchor pattern: [href=], a quote character, then group 1, one or
    more characters that are not quotes. *)
Definition href_re (s : string) : option (string * string) :=
  if startswith "href=" s then
    match drop_str 5 s with
    | String q r =>
        if is_quote q then
          let '(g, rest) := span (fun c => negb (is_quote c)) r in
          match g with
          | EmptyString => None
          | _ => Some (g, rest)
          end
        else None
    | EmptyString => None
    end
  else None.

(** Matching a lower-case ASCII literal under [re.I]. *)
Definition startswith_ci (p s : string) : bool :=
  String.eqb (lower (substring 0 (String.length p) s)) p.

(** [[A-Za-z0-9 _-]] *)
Definition is_colname_char (c : ascii) : bool :=
  is_alpha c || is_digit c || (code c =? 32)%nat || (code c =? 95)%nat || (code c =? 45)%nat.

(** An optional quote character and [ column] at the head of [u]. *)
Definition column_suffix (u : string) : bool :=
  match u with
  | String q r => (is_quote q && startswith_ci " column" r) || startswith_ci " column" u
  | EmptyString => false
  end.

(** Group 1, [[A-Za-z0-9 _-]+], followed by the suffix above: the group is
    tried from its longest extent [j] down to one character. *)
Fixpoint longest_group (t : string) (j : nat) : option string :=
  match j with
  | O => None
  | S j' =>
      if column_suffix (drop_str j t) then Some (substring 0 j t)
      else longest_group t j'
  end.

(** An optional quote character, group 1 and the suffix, at the head of
    [t]: group 1. *)
Definition column_tail (t : string) : option string :=
  let t' := match t with
            | String q r => if is_quote q then r else t
            | EmptyString => t
            end in
  longest_group t' (String.length (fst (span is_colname_char t'))).

(** [[^\n\r]*] followed by the tail: the star gives back one character at
    a time, from [k] characters down to none. *)
Fixpoint backtrack_line (r : string) (k : nat) : option string :=
  match column_tail (drop_str k r) with
  | Some g => Some g
  | None =>
      match k with
      | O => None
      | S k' => backtrack_line r k'
      end
  end.

Definition is_not_newline (c : ascii) : bool :=
  negb ((code c =? 10)%nat || (code c =? 13)%nat).

(** The column-sum pattern under [re.I]: [sum of the], [[^\n\r]*], an
    optional quote character, group 1 [[A-Za-z0-9 _-]+], an optional quote
    character, [ column].  The value is group 1. *)
Definition sum_column_re (s : string) : option (string * string) :=
  if startswith_ci "sum of the" s then
    let r := drop_str 10 s in
    match backtrack_line r (String.length (fst (span is_not_newline r))) with
    | Some g => Some (g, EmptyString)
    | None => None
    end
  else None.

(** ** [aap/worker.py] *)

(** The variables of [solve_quiz_chain] that live across iterations.
    [colname] is bound by the first iteration whose text matches the
    column-sum pattern and stays bound afterwards: the source asks
    ['colname' in locals()]. *)
Record loop_state : Type := {
  current_url : json;
  last_response : json;
  colname : option string;
}.

(** [answer] and [answer_meta] within one iteration. *)
Record cascade : Type := {
  answer : json;
  meta_method : option string;
  meta_file_error : option string;
}.

Definition no_answer : cascade :=
  {| answer := JNull; meta_method := None; meta_file_error := None |}.

(** [answer = v; answer_meta['method'] = tag] *)
Definition with_answer (a : cascade) (v : json) (tag : string) : cascade :=
  {| answer := v; meta_method := Some tag; meta_file_error := meta_file_error a |}.

(** [answer_meta['file_error'] = str(e)] *)
Definition with_file_error (a : cascade) (e : string) : cascade :=
  {| answer := answer a; meta_method := meta_method a; meta_file_error := Some e |}.

(** How one pass through the loop body ends. *)
Inductive flow : Type :=
  | Next (st : loop_state)   (* continue *)
  | Done (result : dict)     (* return *).

(** [a or b] on optional dicts and optional texts. *)
Definition dict_or (a b : option dict) : option dict := if truthy_dict a then a else b.

Definition str_or (a b : option string) : option string := if truthy_str a then a else b.

Definition opt_json (o : option string) : json :=
  match o with Some s => JStr s | None => JNull end.

Definition lift_opt {A} (msg : string) (o : option A) : M A :=
  match o with Some a => ret a | None => raise msg end.

Section Worker.
Context {lib : PyLib} {env : Env} {cfg : Config}.

(** *** Calls into the world *)

(** [time.time()] *)
Definition now : M Z :=
  fun log => (inr (env_time log), (log ++ [EvTime])%list).

(** [page.goto(current_url)], [page.content()], [page.inner_text('body')].
    Playwright rejects a URL that is not a text. *)
Definition render (url : json) : M (string * string) :=
  fun log =>
    match url with
    | JStr u => (env_render log u, (log ++ [EvGoto url])%list)
    | _ => (inl "url: expected string", (log ++ [EvGoto url])%list)
    end.

(** [fetch_bytes(http_client, url)] *)
Definition fetch_bytes (url : string) : M string :=
  fun log => (env_get log url, (log ++ [EvGet url])%list).

(** [http_client.post(submit_url, json=answer_payload, timeout=60.0)] *)
Definition post (url : json) (payload : dict) : M response :=
  fun log => (env_post log url payload, (log ++ [EvPost url payload])%list).

(** A call of the startup that returns: the resource is held from then
    on.  The call that may raise is [launch], further down. *)
Definition acquire (r : resource) : M unit := emit (EvAcquire r).

(** A close call; the close calls are taken to return. *)
Definition close (r : resource) : M unit := emit (EvClose r).

(** The four lines that every [return] of the source is preceded by:
    [http_client.aclose()], [page.close()], [context.close()],
    [browser.close()]. *)
Definition close_all : M unit :=
  close HttpClient ;;; close Page ;;; close BrowserContext ;;; close Browser.

(** *** Signals read off the page (lines 43 to 73) *)

(** The test of the candidate loop. *)
Definition is_submit_like (c : string) : bool :=
  contains "submit" c || contains "submit" (lower c) || contains "answer" (lower c).

(** Lines 49 to 61: the submit URL guessed from the URLs of the visible
    text. *)
Definition guess_submit_url (page_plain : string) : json :=
  match search url_re page_plain with
  | None => JNull
  | Some _ =>
      let candidates := findall url_re (String.length page_plain) page_plain in
      let submit_url := opt_json (List.find is_submit_like candidates) in
      if negb (truthy submit_url) then opt_json (head candidates) else submit_url
  end.

(** [all(k in jsn for k in ('email', 'secret', 'url'))] *)
Definition has_template_keys (d : dict) : bool :=
  dict_has d "email" && dict_has d "secret" && dict_has d "url".

(** Lines 63 to 73: the payload template and the submit URL after it. *)
Definition detect_template (parsed_json jsn : option dict) (submit_url : json)
  : option dict * json :=
  let template :=
    match parsed_json with
    | Some d =>
        if truthy (JObj d) && contains "submit" (lower (json_dumps d))
        then Some d else None
    | None => None
    end in
  match jsn with
  | Some j =>
      if truthy (JObj j) && has_template_keys j then
        (Some j, py_or (dict_get_default j "submit" submit_url)
                       (dict_get_default j "url" submit_url))
      else (template, submit_url)
  | None => (template, submit_url)
  end.

(** *** The answer cascade (lines 76 to 225) *)

(** [pd.to_numeric(df[c], errors='coerce')] *)
Definition to_numeric_coerce (cells : list cell) : list (option Q) :=
  (fun c => match c with
            | CNum q => Some q
            | CStr s => pd_to_numeric s
            | CNaN => None
            end) <$> cells.

(** The body of the [try] in the column loops:
    [float(pd.to_numeric(df[c], errors='coerce').sum())].  On a [Series],
    with [errors='coerce'], a cell that is not a number becomes a missing
    value and nothing is raised, so the value is always there.  On a
    [DataFrame] (a label that several columns carry) [pd.to_numeric]
    raises. *)
Definition try_coerce_sum (sel : list (list cell)) : option Q :=
  match sel with
  | [cells] => Some (nansum (to_numeric_coerce cells))
  | _ => None
  end.

(** [for c in df.columns: try: ...; answer = s; ...; break
    except Exception: continue], over the labels [cols] still to visit. *)
Fixpoint first_numeric_from (tag : string) (cols : list label) (df : dataframe)
    (a : cascade) : cascade :=
  match cols with
  | [] => a
  | c :: rest =>
      match try_coerce_sum (df_getitem df c) with
      | Some s => with_answer a (JNum s) (tag ++ label_str c)
      | None => first_numeric_from tag rest df a
      end
  end.

Definition first_numeric_column (tag : string) (df : dataframe) (a : cascade) : cascade :=
  first_numeric_from tag (fst <$> df) df a.

(** Step 1, lines 80 to 89.  The value carries the binding of [colname]
    after the step. *)
Definition column_sum_step (page_plain page_text : string)
    (col : option string) (a : cascade) : M (option string * cascade) :=
  match search sum_column_re page_plain with
  | Some g1 =>
      let colname := strip g1 in
      match parse_table_html_to_df page_text with
      | Some df =>
          s <~ lift_opt "'int' object has no attribute 'lower'"
                (sum_dataframe_column df colname) ;
          if negb (is_none s)
          then ret (Some colname, with_answer a s "html-table-sum")
          else ret (Some colname, a)
      | None => ret (Some colname, a)
      end
  | None => ret (col, a)
  end.

(** [any(ext in L.lower() for ext in ['.pdf', '.csv', '.xls', '.xlsx'])] *)
Definition has_file_ext (L : string) : bool :=
  contains ".pdf" (lower L) || contains ".csv" (lower L)
  || contains ".xls" (lower L) || contains ".xlsx" (lower L).

(** The csv and excel branches of step 2 after the table is parsed. *)
Definition table_branch (tag_sum tag_first : string) (df : dataframe)
    (col : option string) (a : cascade) : M cascade :=
  match col with
  | Some colname =>
      s <~ lift_opt "'int' object has no attribute 'lower'"
            (sum_dataframe_column df colname) ;
      if negb (is_none s) then ret (with_answer a s tag_sum) else ret a
  | None => ret (first_numeric_column tag_first df a)
  end.

(** The pdf branch of step 2.  [io] is not bound in [worker.py], so
    [pdfplumber.open(io.BytesIO(content))] raises [NameError]; its handler
    decodes the bytes as text. *)
Definition pdf_branch (content : string) (col : option string) (a : cascade) : cascade :=
  let text := utf8_decode_ignore content in
  let nums := extract_numbers text in
  match nums with
  | [] => a
  | _ =>
      with_answer a (JNum (py_sum nums))
        (match col with
         | Some _ => "pdf-sum-heuristic"
         | None => "pdf-sum-all-numbers"
         end)
  end.

(** Lines 102 to 107: the link made absolute.  Only a link that opens with
    a slash is resolved against the current URL. *)
Definition absolute_link (url L : string) : string :=
  let file_link := if startswith "//" L then "https:" ++ L else L in
  if startswith "/" file_link then urljoin url file_link else file_link.

(** The body of step 2, lines 93 to 170. *)
Definition linked_file_body (url page_text : string)
    (col : option string) (a : cascade) : M cascade :=
  let links := findall href_re (String.length page_text) page_text in
  match List.find has_file_ext links with
  | None => ret a
  | Some L =>
      let file_link := absolute_link url L in
      try_except
        (content <~ fetch_bytes file_link ;
         if endswith ".csv" (lower file_link) then
           df <~ lift_opt "read_csv failed" (parse_csv_bytes content) ;
           table_branch "csv-sum" "csv-first-numeric:" df col a
         else if endswith ".xls" (lower file_link) || endswith ".xlsx" (lower file_link) then
           df <~ lift_opt "read_excel failed" (parse_excel_bytes content) ;
           table_branch "excel-sum" "excel-first-numeric:" df col a
         else if endswith ".pdf" (lower file_link) then
           ret (pdf_branch content col a)
         else ret a)
        (fun e => ret (with_file_error a e))
  end.

(** Step 2, lines 92 to 170: [if answer is None: ...]. *)
Definition linked_file_step (url page_text : string)
    (col : option string) (a : cascade) : M cascade :=
  if is_none (answer a) then linked_file_body url page_text col a else ret a.

(** The body of step 3, lines 175 to 179. *)
Definition inline_sum_body (page_plain : string) (a : cascade) : cascade :=
  if contains "sum of" (lower page_plain) || contains "what is the sum" (lower page_plain)
  then
    match extract_numbers page_plain with
    | [] => a
    | nums => with_answer a (JNum (py_sum nums)) "sum-inline-numbers"
    end
  else a.

(** Step 3, lines 173 to 179: [if answer is None: ...]. *)
Definition inline_sum_step (page_plain : string) (a : cascade) : cascade :=
  if is_none (answer a) then inline_sum_body page_plain a else a.

(** [s.endswith(('.csv', '.pdf', '.xlsx'))] *)
Definition is_data_url (s : string) : bool :=
  endswith ".csv" s || endswith ".pdf" s || endswith ".xlsx" s.

(** The body of step 4, lines 184 to 204, [payload] being the copy of the
    template.  [payload.get('url', '').endswith] is an attribute of a text
    only: on any other value it raises. *)
Definition template_body (payload : dict) (a : cascade) : M cascade :=
  if dict_has payload "answer" && is_scalar (dict_get payload "answer") then
    ret (with_answer a (dict_get payload "answer") "from_template")
  else if dict_has payload "url" then
    match dict_get_default payload "url" (JStr "") with
    | JStr u =>
        if is_data_url u then
          try_except
            (c <~ fetch_bytes u ;
             if endswith ".csv" u then
               df <~ lift_opt "read_csv failed" (parse_csv_bytes c) ;
               ret (first_numeric_column "template-csv-first-num:" df a)
             else ret a)
            (fun _ => ret a)
        else ret a
    | _ => raise "object has no attribute 'endswith'"
    end
  else ret a.

(** Step 4, lines 182 to 204:
    [if answer is None and submit_payload_template: ...]. *)
Definition template_step (template : option dict) (a : cascade) : M cascade :=
  if is_none (answer a) && truthy_dict template then
    match template with
    | Some payload => template_body payload a
    | None => ret a
    end
  else ret a.

(** The body of step 5, lines 209 to 218. *)
Definition decoded_body (decoded : string) (a : cascade) : cascade :=
  let js := try_parse_json_from_text decoded in
  let by_numbers :=
    match extract_numbers decoded with
    | [] => a
    | nums => with_answer a (JNum (py_sum nums)) "decoded-sum"
    end in
  match js with
  | Some j =>
      if truthy (JObj j) && dict_has j "answer"
      then with_answer a (dict_get j "answer") "decoded-json"
      else by_numbers
  | None => by_numbers
  end.

(** Step 5, lines 207 to 218: [if answer is None and decoded: ...]. *)
Definition decoded_step (decoded : option string) (a : cascade) : cascade :=
  if is_none (answer a) && truthy_str decoded then
    match decoded with
    | Some d => decoded_body d a
    | None => a
    end
  else a.

(** The body of the final fallback, lines 222 to 225. *)
Definition fallback_body (page_plain : string) (a : cascade) : cascade :=
  match extract_numbers page_plain with
  | [] => a
  | nums => with_answer a (JNum (py_sum nums)) "fallback-sum-page"
  end.

(** The final fallback, lines 221 to 225: [if answer is None: ...]. *)
Definition fallback_step (page_plain : string) (a : cascade) : cascade :=
  if is_none (answer a) then fallback_body page_plain a else a.

(** Lines 76 to 225 in sequence. *)
Definition resolve_answer (url page_text page_plain : string)
    (template : option dict) (decoded : option string) (col : option string)
  : M (option string * cascade) :=
  '(col', a) <~ column_sum_step page_plain page_text col no_answer ;
  a <~ linked_file_step url page_text col' a ;
  let a := inline_sum_step page_plain a in
  a <~ template_step template a ;
  let a := decoded_step decoded a in
  let a := fallback_step page_plain a in
  ret (col', a).

(** *** The payload and its target (lines 228 to 258) *)

(** Lines 228 to 246. *)
Definition build_payload (provided_secret : string) (url : json) (a : cascade) : dict :=
  if is_none (answer a) then
    {[ "email" := JStr EMAIL;
       "secret" := JStr provided_secret;
       "url" := url;
       "answer" := JNull;
       "note" := JStr "unable to parse task automatically" ]}
  else
    <[ "_meta" := JObj {[ "method" := opt_json (meta_method a);
                          "raw_page_sample" := JNull ]} ]>
    {[ "email" := JStr EMAIL;
       "secret" := JStr provided_secret;
       "url" := url;
       "answer" := answer a ]}.

(** [{k: v for k, v in answer_payload.items() if v is not None}] *)
Definition non_null (payload : dict) : dict :=
  filter (fun kv => is_none kv.2 = false) payload.

(** Lines 249 to 252: [base = template.copy(); base.update(...)]. *)
Definition merge_template (template : option dict) (payload : dict) : dict :=
  match template with
  | Some t => if truthy (JObj t) then non_null payload ∪ t else payload
  | None => payload
  end.

(** Lines 255 to 258. *)
Definition final_submit_url (template : option dict) (submit_url : json) : json :=
  match template with
  | Some t =>
      if truthy (JObj t) then
        let possible := py_or (dict_get t "submit") (dict_get t "url") in
        if truthy possible then possible else submit_url
      else submit_url
  | None => submit_url
  end.

(** *** Submission (lines 260 to 297) *)

(** [r.json()], or the wrapper of the handler. *)
Definition response_json (r : response) : json :=
  match resp_json r with
  | Some j => j
  | None => JObj {[ "status_code" := JNum (inject_Z (status_code r));
                    "text" := JStr (resp_text r) ]}
  end.

(** [resp_json.get('url') or resp_json.get('next')] when the body is a
    dict, [None] otherwise. *)
Definition next_url (resp : json) : json :=
  match resp with
  | JObj d => py_or (dict_get d "url") (dict_get d "next")
  | _ => JNull
  end.

Definition no_submit_result (url : json) (payload : dict) : dict :=
  {[ "success" := JBool false;
     "reason" := JStr "No submit URL found on page";
     "page_url" := url;
     "payload_tried" := JObj payload ]}.

Definition success_result (resp : json) (payload : dict) : dict :=
  {[ "success" := JBool true;
     "final_response" := resp;
     "submitted" := JObj payload ]}.

Definition submit_failure_result (e : string) (payload : dict) : dict :=
  {[ "success" := JBool false;
     "reason" := JStr ("failed to submit answer: " ++ e);
     "payload_tried" := JObj payload ]}.

Definition timeout_result (last : json) : dict :=
  {[ "success" := JBool false;
     "reason" := JStr "timeout or loop ended";
     "last_response" := last ]}.

(** Lines 260 to 297. *)
Definition submit (st : loop_state) (col : option string)
    (submit_url : json) (answer_payload : dict) : M flow :=
  if negb (truthy submit_url) then
    close_all ;;;
    ret (Done (no_submit_result (current_url st) answer_payload))
  else
    try_except
      (r <~ post submit_url answer_payload ;
       let resp := response_json r in
       let next := next_url resp in
       if truthy next then
         ret (Next {| current_url := next; last_response := resp; colname := col |})
       else
         close_all ;;;
         ret (Done (success_result resp answer_payload)))
      (fun e =>
         close_all ;;;
         ret (Done (submit_failure_result e answer_payload))).

(** *** One pass through the loop body (lines 38 to 297) *)

(** Lines 43 to 73: the decoded blob, the payload template and the
    submit URL read off the page. *)
Definition extract_signals (page_text page_plain : string)
  : option string * option dict * json :=
  let parsed_json :=
    dict_or (try_parse_json_from_text page_plain) (try_parse_json_from_text page_text) in
  let decoded :=
    str_or (decode_base64_block page_plain) (decode_base64_block page_text) in
  let submit_url := guess_submit_url page_plain in
  let jsn := try_parse_json_from_text page_plain in
  let '(template, submit_url) := detect_template parsed_json jsn submit_url in
  (decoded, template, submit_url).

(** Lines 43 to 258 once the page is rendered: the binding of [colname],
    the payload to post and the submit URL. *)
Definition prepare (provided_secret : string) (st : loop_state)
    (url page_text page_plain : string) : M (option string * dict * json) :=
  let '(decoded, template, submit_url) := extract_signals page_text page_plain in
  '(col, a) <~ resolve_answer url page_text page_plain template decoded (colname st) ;
  let answer_payload := build_payload provided_secret (current_url st) a in
  let answer_payload := merge_template template answer_payload in
  let submit_url := final_submit_url template submit_url in
  ret (col, answer_payload, submit_url).

Definition iteration (provided_secret : string) (st : loop_state) : M flow :=
  '(page_text, page_plain) <~ render (current_url st) ;
  let url := match current_url st with JStr u => u | _ => EmptyString end in
  '(col, answer_payload, submit_url) <~
     prepare provided_secret st url page_text page_plain ;
  submit st col submit_url answer_payload.

(** *** The loop and the function *)

(** [while current_url and time.time() < deadline]: the clock is read
    only when [current_url] is true. *)
Definition loop_test (deadline : Z) (st : loop_state) : M bool :=
  if truthy (current_url st) then t <~ now ; ret (t <? deadline)%Z
  else ret false.

(** The [while] loop with the lines after it (299 to 304).  [fuel] bounds
    the number of passes; [None] is a run cut short by the bound. *)
Fixpoint chain_loop (fuel : nat) (deadline : Z) (provided_secret : string)
    (st : loop_state) : M (option dict) :=
  match fuel with
  | O => ret None
  | S fuel' =>
      go <~ loop_test deadline st ;
      if go then
        f <~ iteration provided_secret st ;
        match f with
        | Next st' => chain_loop fuel' deadline provided_secret st'
        | Done result => ret (Some result)
        end
      else
        close_all ;;;
        ret (Some (timeout_result (last_response st)))
  end.

(** [async with async_playwright() as pw: body]: the context manager is
    left on every way out of the body, exceptions included.  Here, and in
    [solve_quiz_chain] below, Playwright, the browser, the context, the
    page and the HTTP client do start; the runs in which one of them fails
    to start are those of [solve_quiz_chain_launching]. *)
Definition async_with_playwright {A} (body : M A) : M A :=
  fun log =>
    let '(r, log') := (acquire Playwright ;;; body) log in
    (r, (log' ++ [EvClose Playwright])%list).

Definition solve_quiz_chain (fuel : nat) (start_url provided_secret : string)
  : M (option dict) :=
  t0 <~ now ;
  let deadline := (t0 + TIMEOUT_SECONDS)%Z in
  async_with_playwright
    (acquire Browser ;;;
     acquire BrowserContext ;;;
     acquire Page ;;;
     acquire HttpClient ;;;
     chain_loop fuel deadline provided_secret
       {| current_url := JStr start_url; last_response := JNull; colname := None |}).

End Worker.

(** ** The cascade as the specification words it

    'Ordered cascade; evaluated top to bottom; the first heuristic
    producing a non-absent value wins and short-circuits the rest.'  A
    heuristic is a function of the signals of the page that produces a
    value together with the tag of its method, or produces nothing.  A
    failure inside a heuristic is absorbed: the heuristic produces
    nothing.  Fetching a file is a call into the world, so a heuristic
    extends the history.

    The order and the short circuit are those of the specification.  What
    a single heuristic produces is what the step of the source computes
    when it runs alone (a link is taken when an extension occurs in it, a
    column is summed after coercion); the wording of the specification for
    the single heuristics is compared with the source elsewhere. *)

Definition produced : Type := option (json * string).



(** A value with its tag, when the value is not absent. *)
Definition present (v : json) (tag : string) : produced :=
  if is_none v then None else Some (v, tag).

Section CascadeSpec.
Context {lib : PyLib} {env : Env}.













End CascadeSpec.

(** ** The vocabulary of the statements *)

(** [emits P Q c]: from any history, [c] appends events that all satisfy
    [P], and a value it returns satisfies [Q]. *)
Definition emits {A} (P : event -> Prop) (Q : A -> Prop) (c : M A) : Prop :=
  forall log, exists evs,
    snd (c log) = (log ++ evs)%list
    /\ Forall P evs
    /\ forall a, fst (c log) = inr a -> Q a.

Definition any {A} : A -> Prop := fun _ => True.


(** The four close calls that precede every [return]. *)
Definition closes : list event :=
  [EvClose HttpClient; EvClose Page; EvClose BrowserContext; EvClose Browser].

(** The three identity fields, with the values the program computed. *)
Definition carries_identity {cfg : Config} (secret : string) (url : json) (p : dict) : Prop :=
  p !! "email" = Some (JStr EMAIL)
  /\ p !! "secret" = Some (JStr secret)
  /\ p !! "url" = Some url.

(** A posted payload carries the identity fields, the URL being a value
    that is true (it passed the loop test). *)
Definition posted_with_identity {cfg : Config} (secret : string) (e : event) : Prop :=
  match e with
  | EvPost _ p => exists u, truthy u = true /\ carries_identity secret u p
  | _ => True
  end.

(** A column label that is a text. *)
Definition is_text_label (c : label) : Prop :=
  match c with LStr _ => True | LInt _ => False end.

(** The unguarded attribute accesses of the cascade cannot raise: the
    labels of the first table of the markup are texts (so [c.lower()] is
    there) and distinct (so [df[name]] is a Series), and the [url] field of
    the payload template is a text (so [.endswith] is there). *)
Definition well_formed_page {lib : PyLib} (page_text page_plain : string) : Prop :=
  (forall df, parse_table_html_to_df page_text = Some df ->
     Forall is_text_label (fst <$> df) /\ NoDup (fst <$> df))
  /\ (forall t v, snd (fst (extract_signals page_text page_plain)) = Some t ->
        t !! "url" = Some v -> exists s, v = JStr s).

(** The results the chain returns. *)
Definition submit_outcome (f : flow) : Prop :=
  match f with
  | Next _ => True
  | Done r =>
      (exists resp p, r = success_result resp p)
      \/ (exists u p, r = no_submit_result u p)
      \/ (exists e p, r = submit_failure_result e p)
  end.


(** ** A reference library and reference worlds

    Executable instances of [PyLib] and [Env], for running the program on
    concrete pages.  The decoders cover the fragment of each format that
    the pages below use; on that fragment they compute what the Python
    libraries compute. *)

Module Reference.

(** The double quote character. *)
Definition dq : string := String (ascii_of_nat 34) EmptyString.

(** [s] between double quotes. *)
Definition quoted (s : string) : string := dq ++ s ++ dq.

(** JSON white space. *)
Definition is_json_ws (c : ascii) : bool :=
  (code c =? 32)%nat || (code c =? 9)%nat || (code c =? 10)%nat || (code c =? 13)%nat.

Definition skip_ws (s : string) : string := snd (span is_json_ws s).

(** The body of a JSON string after its opening quote, up to the closing
    quote.  Escapes and control characters are outside the fragment. *)
Definition parse_string (s : string) : option (string * string) :=
  let '(body, rest) :=
    span (fun c => negb ((code c =? 34)%nat || (code c =? 92)%nat || (code c <? 32)%nat)) s in
  match rest with
  | String q r => if (code q =? 34)%nat then Some (body, r) else None
  | EmptyString => None
  end.

(** A JSON number without exponent. *)
Definition parse_number (s : string) : option (json * string) :=
  match number_re s with
  | Some (tok, rest) =>
      let digits := match tok with
                    | String c r => if (code c =? 45)%nat then r else tok
                    | EmptyString => tok
                    end in
      match digits with
      | String z (String d _) =>
          if (code z =? 48)%nat && is_digit d then None
          else Some (JNum (float_of_token tok), rest)
      | _ => Some (JNum (float_of_token tok), rest)
      end
  | None => None
  end.

Fixpoint parse_value (fuel : nat) (s : string) {struct fuel} : option (json * string) :=
  match fuel with
  | O => None
  | S f =>
      match s with
      | EmptyString => None
      | String c r =>
          if (code c =? 123)%nat then
            match skip_ws r with
            | String c2 r2 =>
                if (code c2 =? 125)%nat then Some (JObj ∅, r2)
                else parse_members f (skip_ws r) ∅
            | EmptyString => None
            end
          else if (code c =? 91)%nat then
            match skip_ws r with
            | String c2 r2 =>
                if (code c2 =? 93)%nat then Some (JArr [], r2)
                else parse_elements f (skip_ws r) []
            | EmptyString => None
            end
          else if (code c =? 34)%nat then
            match parse_string r with
            | Some (b, rest) => Some (JStr b, rest)
            | None => None
            end
          else if startswith "true" s then Some (JBool true, drop_str 4 s)
          else if startswith "false" s then Some (JBool false, drop_str 5 s)
          else if startswith "null" s then Some (JNull, drop_str 4 s)
          else parse_number s
      end
  end
with parse_members (fuel : nat) (s : string) (acc : dict) {struct fuel}
  : option (json * string) :=
  match fuel with
  | O => None
  | S f =>
      match s with
      | String q r =>
          if (code q =? 34)%nat then
            match parse_string r with
            | Some (k, rest) =>
                match skip_ws rest with
                | String colon r3 =>
                    if (code colon =? 58)%nat then
                      match parse_value f (skip_ws r3) with
                      | Some (v, rest2) =>
                          let acc' := <[k := v]> acc in
                          match skip_ws rest2 with
                          | String d r4 =>
                              if (code d =? 44)%nat then parse_members f (skip_ws r4) acc'
                              else if (code d =? 125)%nat then Some (JObj acc', r4)
                              else None
                          | EmptyString => None
                          end
                      | None => None
                      end
                    else None
                | EmptyString => None
                end
            | None => None
            end
          else None
      | EmptyString => None
      end
  end
with parse_elements (fuel : nat) (s : string) (acc : list json) {struct fuel}
  : option (json * string) :=
  match fuel with
  | O => None
  | S f =>
      match parse_value f s with
      | Some (v, rest) =>
          match skip_ws rest with
          | String d r =>
              if (code d =? 44)%nat then parse_elements f (skip_ws r) (acc ++ [v])%list
              else if (code d =? 93)%nat then Some (JArr (acc ++ [v])%list, r)
              else None
          | EmptyString => None
          end
      | None => None
      end
  end.

(** [json.loads] on a text that opens with a brace. *)
Definition loads (s : string) : option dict :=
  match parse_value (S (String.length s)) (skip_ws s) with
  | Some (JObj d, rest) =>
      match skip_ws rest with
      | EmptyString => Some d
      | _ => None
      end
  | _ => None
  end.

(** Decimal digits of a number, for [dumps]: the integer part, and up to
    [n] digits of the fraction. *)
Fixpoint fraction_digits (n : nat) (num : Z) (den : Z) : string :=
  match n with
  | O => EmptyString
  | S n' =>
      if (num =? 0)%Z then EmptyString
      else pretty (10 * num / den)%Z ++ fraction_digits n' ((10 * num) mod den)%Z den
  end.

Definition dumps_number (q : Q) : string :=
  let n := Qnum q in
  let d := Zpos (Qden q) in
  let a := Z.abs n in
  (if (n <? 0)%Z then "-" else "")
  ++ pretty (a / d)%Z
  ++ (if (a mod d =? 0)%Z then "" else "." ++ fraction_digits 17 (a mod d)%Z d).

(** [json.dumps] with its default separators; the keys of an object come
    in the order of the map. *)
Fixpoint dumps_value (v : json) : string :=
  match v with
  | JNull => "null"
  | JBool true => "true"
  | JBool false => "false"
  | JNum q => dumps_number q
  | JStr s => quoted s
  | JArr l =>
      "[" ++ fold_right (fun x acc =>
               dumps_value x ++ (match acc with EmptyString => "" | _ => ", " ++ acc end))
             "" l ++ "]"
  | JObj m =>
      "{" ++ map_fold (fun k x acc =>
               quoted k ++ ": " ++ dumps_value x
               ++ (match acc with EmptyString => "" | _ => ", " ++ acc end))
             "" m ++ "}"
  end.

Definition dumps (d : dict) : string := dumps_value (JObj d).

(** A decimal numeral, white space around it allowed: the fragment of
    [float] and of [pd.to_numeric] on texts. *)
Definition decimal (s : string) : option Q :=
  match number_re (strip s) with
  | Some (tok, EmptyString) => Some (float_of_token tok)
  | _ => None
  end.

(** [s.split(sep)] for a one-character separator. *)
Fixpoint split_on (sep : nat) (s : string) : list string :=
  match s with
  | EmptyString => [EmptyString]
  | String c r =>
      if (code c =? sep)%nat then EmptyString :: split_on sep r
      else match split_on sep r with
           | w :: ws => String c w :: ws
           | [] => [String c EmptyString]
           end
  end.

(** The texts that [read_csv] reads as a missing value. *)
Definition na_values : list string :=
  [ ""; "#N/A"; "#N/A N/A"; "#NA"; "-1.#IND"; "-1.#QNAN"; "-NaN"; "-nan";
    "1.#IND"; "1.#QNAN"; "<NA>"; "N/A"; "NA"; "NULL"; "NaN"; "None"; "n/a";
    "nan"; "null" ].

Definition is_na (s : string) : bool := existsb (String.eqb s) na_values.

(** Type inference on one column: numbers when every cell that is not
    missing is a decimal numeral, texts otherwise. *)
Definition infer_column (raw : list string) : list cell :=
  if forallb (fun s => is_na s || bool_decide (is_Some (decimal s))) raw then
    (fun s => match decimal s with
              | Some q => if is_na s then CNaN else CNum q
              | None => CNaN
              end) <$> raw
  else
    (fun s => if is_na s then CNaN else CStr s) <$> raw.

(** [pd.read_csv] on comma-separated lines without quoting, the first
    line being the header.  An empty file, and a row longer than the
    header, raise. *)
Definition read_csv (content : string) : option dataframe :=
  let lines := filter (fun l => l <> EmptyString)
                 ((fun l => filter_str (fun c => negb (code c =? 13)%nat) l)
                    <$> split_on 10 content) in
  match lines with
  | [] => None
  | header :: rows =>
      let labels := split_on 44 header in
      let table := split_on 44 <$> rows in
      if forallb (fun row => (length row <=? length labels)%nat) table then
        Some (imap (fun j name =>
                      (LStr name, infer_column ((fun row => nth j row EmptyString) <$> table)))
                   labels)
      else None
  end.

(** [urljoin(base, ref)] for a reference that is an absolute path: the
    scheme and authority of the base, then the path. *)
Definition join (base ref : string) : string :=
  match index 0 "://" base with
  | Some i =>
      let rest := drop_str (i + 3) base in
      let host := fst (span (fun c => negb ((code c =? 47)%nat || (code c =? 63)%nat
                                            || (code c =? 35)%nat)) rest) in
      substring 0 (i + 3) base ++ host ++ ref
  | None => ref
  end.

(** The value of a character of the base64 alphabet. *)
Definition b64_value (c : ascii) : option nat :=
  if in_range 65 90 c then Some (code c - 65)%nat
  else if in_range 97 122 c then Some (code c - 71)%nat
  else if in_range 48 57 c then Some (code c + 4)%nat
  else if (code c =? 43)%nat then Some 62%nat
  else if (code c =? 47)%nat then Some 63%nat
  else None.

Definition byte (n : nat) : string := String (ascii_of_nat (n mod 256)) EmptyString.

(** [base64.b64decode] on canonical input: groups of four characters,
    padding in the last group only. *)
Fixpoint b64decode (s : string) : option string :=
  match s with
  | EmptyString => Some EmptyString
  | String a (String b (String c (String d r))) =>
      va ← b64_value a;
      vb ← b64_value b;
      let b1 := byte (va * 4 + vb / 16) in
      if (code c =? 61)%nat then
        if (code d =? 61)%nat && String.eqb r "" then Some b1 else None
      else
        vc ← b64_value c;
        let b2 := byte ((vb mod 16) * 16 + vc / 4) in
        if (code d =? 61)%nat then
          if String.eqb r "" then Some (b1 ++ b2) else None
        else
          vd ← b64_value d;
          let b3 := byte ((vc mod 4) * 64 + vd) in
          rest ← b64decode r;
          Some (b1 ++ b2 ++ b3 ++ rest)
  | _ => None
  end.

(** [bytes.decode('utf-8', errors='ignore')] onto the code points below
    256: ASCII, and the two-byte sequences led by 0xC2 and 0xC3. *)
Fixpoint utf8_decode (s : string) : string :=
  match s with
  | EmptyString => EmptyString
  | String c r =>
      if (code c <? 128)%nat then String c (utf8_decode r)
      else
        match r with
        | String c2 r2 =>
            if ((code c =? 194)%nat || (code c =? 195)%nat) && in_range 128 191 c2 then
              String (ascii_of_nat (code c2 + (code c - 194) * 64)) (utf8_decode r2)
            else utf8_decode r
        | EmptyString => EmptyString
        end
  end.

(** The reference library.  It reads pages that carry no [<table>] (where
    [read_html] raises for want of a table) and files that are not
    workbooks (where [read_excel] raises). *)
Definition lib : PyLib := {|
  json_loads := loads;
  json_dumps := dumps;
  b64decode_utf8 := fun block => utf8_decode <$> b64decode block;
  utf8_decode_ignore := utf8_decode;
  py_float := decimal;
  pd_to_numeric := decimal;
  pd_read_html := fun _ => None;
  pd_read_csv := read_csv;
  pd_read_excel := fun _ => None;
  urljoin := join;
|}.

Definition assoc {A} (k : string) (l : list (string * A)) : option A :=
  snd <$> List.find (fun kv => String.eqb (fst kv) k) l.

(** A world made of fixed pages (URL, markup, visible text), fixed files
    and fixed submit endpoints; every call takes one unit of time. *)
Definition world (pages : list (string * (string * string)))
    (files : list (string * string)) (endpoints : list (string * response)) : Env := {|
  env_time := fun log => Z.of_nat (length log);
  env_render := fun _ u =>
    match assoc u pages with
    | Some p => inr p
    | None => inl "net::ERR_NAME_NOT_RESOLVED"
    end;
  env_get := fun _ u =>
    match assoc u files with
    | Some c => inr c
    | None => inl "404 Not Found"
    end;
  env_post := fun _ url _ =>
    match url with
    | JStr u =>
        match assoc u endpoints with
        | Some r => inr r
        | None => inl "All connection attempts failed"
        end
    | _ => inl "Invalid type for url"
    end;
|}.

Definition config : Config := {| EMAIL := "you@example.com"; TIMEOUT_SECONDS := 180 |}.

(** A response whose body is the JSON value [v]. *)
Definition json_response (v : json) : response :=
  {| status_code := 200; resp_text := dumps_value v; resp_json := Some v |}.

End Reference.

(** ** Pages and worlds for concrete runs *)

Module Scenarios.
Import Reference.

Definition nl : string := String (ascii_of_nat 10) EmptyString.

(** A quiz page: an inline sum and the URL to post to. *)
Definition quiz_plain : string :=
  "The sum of these numbers: 4, 5, 6. Post your answer to https://x/submit".

Definition quiz_markup : string :=
  "<html><body><p>" ++ quiz_plain ++ "</p></body></html>".

(** The same page with a link to a data file in its markup. *)
Definition linked_markup : string :=
  "<html><body><p>" ++ quiz_plain
  ++ "</p><a href='https://x/data.csv'>data.csv</a></body></html>".

(** A page that asks for the sum of a linked file. *)
Definition csv_plain : string := "Download the data and add up the values. data.csv".

Definition csv_markup : string :=
  "<p>Download the data and add up the values.</p><a href='https://x/data.csv'>data.csv</a>".

Definition csv_file : string :=
  "name,value" ++ nl ++ "a,1" ++ nl ++ "b,2" ++ nl ++ "c,3" ++ nl.

(** A page with a base64 block of 100 characters, the encoding of an
    object with the answer 42 followed by spaces. *)
Definition blob_plain : string :=
  "Decode this: eyJhbnN3ZXIiOiA0Mn0gICAgICAgICAgICAgICAgICAgICAgICAgICAgICAgICAgICAgICAg"
  ++ "ICAgICAgICAgICAgICAgICAgICAg. Post your answer to https://x/submit".

(** A page with nothing to compute from. *)
Definition empty_plain : string := "Nothing to see here. Post your answer to https://x/submit".

(** A page whose visible text is a JSON object with a [submit] key only. *)
Definition submit_only_plain : string :=
  "{" ++ quoted "submit" ++ ": " ++ quoted "https://x/submit" ++ "}".

Definition start : loop_state :=
  {| current_url := JStr "https://x/q1"; last_response := JNull; colname := None |}.

(** The server names the next page under [next]. *)
Definition next_world : Env :=
  world [("https://x/q1", (quiz_markup, quiz_plain))] []
    [("https://x/submit", json_response (JObj {[ "next" := JStr "https://x/page2" ]}))].

(** The server sends an empty [url]. *)
Definition empty_url_world : Env :=
  world [("https://x/q1", (quiz_markup, quiz_plain))] []
    [("https://x/submit", json_response (JObj {[ "url" := JStr "" ]}))].

(** The linked file is missing. *)
Definition missing_file_world : Env :=
  world [("https://x/q1", (linked_markup, quiz_plain))] []
    [("https://x/submit", json_response (JObj {[ "correct" := JBool true ]}))].

(** The linked file is there. *)
Definition csv_world : Env :=
  world [("https://x/q1", (csv_markup, csv_plain))] [("https://x/data.csv", csv_file)] [].

(** No page answers. *)
Definition unreachable_world : Env := world [] [] [].

(** A second page, and a server that sends the solver from the first page
    to the second and accepts the answer to the second. *)
Definition second_plain : string :=
  "The sum of these numbers: 1, 2. Post your answer to https://x/submit-b".

Definition chain_world : Env :=
  world [("https://x/q1", (quiz_markup, quiz_plain));
         ("https://x/page2", (second_plain, second_plain))] []
    [("https://x/submit", json_response (JObj {[ "next" := JStr "https://x/page2" ]}));
     ("https://x/submit-b", json_response (JObj {[ "correct" := JBool true ]}))].

(** A budget of no time at all. *)
Definition no_time : Config := {| EMAIL := "you@example.com"; TIMEOUT_SECONDS := 0 |}.

(** The pages a history navigated to, and the answers it posted. *)
Definition visited (log : list event) : list json :=
  omap (fun e => match e with EvGoto u => Some u | _ => None end) log.

Definition posted_answers (log : list event) : list (json * json) :=
  omap (fun e => match e with
                 | EvPost u p => Some (u, dict_get p "answer")
                 | _ => None
                 end) log.

End Scenarios.

(** ** [aap/main.py] *)

(** What the endpoint answers: a JSON response, an [HTTPException], or an
    exception that nothing handles (the framework answers it with 500). *)
Inductive http_reply : Type :=
  | JSONResponse (status : Z) (content : json)
  | HTTPException (status : Z) (detail : string)
  | Unhandled (exc : string).

(** The worker that [asyncio.create_task] starts: [run_worker(url, secret)]. *)
Record task : Type := {
  task_url : json;
  task_secret : string;
}.

(** [k in j] for a text [k]: a key of a dict, an element of a list, a
    substring of a text; [None] is the [TypeError] of any other value. *)
Definition py_in (k : string) (j : json) : option bool :=
  match j with
  | JObj d => Some (dict_has d k)
  | JArr l => Some (existsb (fun x => match x with
                                      | JStr s => String.eqb s k
                                      | _ => false
                                      end) l)
  | JStr s => Some (contains k s)
  | _ => None
  end.

(** [all(k in j for k in ('email', 'secret', 'url'))] *)
Definition has_fields (j : json) : option bool :=
  match py_in "email" j with
  | Some true =>
      match py_in "secret" j with
      | Some true => py_in "url" j
      | other => other
      end
  | other => other
  end.

(** [j[k]] for a text [k]: the value of a dict; [None] is the [KeyError]
    of a missing key and the [TypeError] of any other value. *)
Definition py_getitem (j : json) (k : string) : option json :=
  match j with
  | JObj d => d !! k
  | _ => None
  end.

(** [v == SECRET] for a JSON value and a text: only a text can be equal;
    the value is then that text. *)
Definition equal_text (v : json) (SECRET : string) : option string :=
  match v with
  | JStr s => if String.eqb s SECRET then Some s else None
  | _ => None
  end.

(** [quiz_entry], lines 19 to 45, for a request whose body parses to
    [body] ([None] when [req.json()] raises) and a configured [SECRET]:
    the reply, and the worker started if any. *)
Definition quiz_entry (SECRET : string) (body : option json) : http_reply * option task :=
  match body with
  | None => (HTTPException 400 "Invalid JSON", None)
  | Some j =>
      match has_fields j with
      | None => (Unhandled "TypeError", None)
      | Some false => (HTTPException 400 "Missing fields", None)
      | Some true =>
          match py_getitem j "secret" with
          | None => (Unhandled "TypeError", None)
          | Some v =>
              match equal_text v SECRET with
              | None => (HTTPException 403 "Invalid secret", None)
              | Some s =>
                  match py_getitem j "url" with
                  | Some u =>
                      (JSONResponse 200 (JObj {[ "status" := JStr "accepted" ]}),
                       Some {| task_url := u; task_secret := s |})
                  | None => (HTTPException 500 "'url'", None)
                  end
              end
          end
      end
  end.

(** What [run_worker] prints: the elapsed time and the result, or the
    error. *)
Inductive worker_report : Type :=
  | Finished (elapsed : Z) (result : option dict)
  | Failed (error : string).

Section Main.
Context {lib : PyLib} {env : Env} {cfg : Config}.

(** [solve_quiz_chain] for a start URL that is any JSON value, as the
    endpoint passes it on ([j['url']] is not checked to be a text). *)
Definition solve_quiz_chain_json (fuel : nat) (start_url : json) (provided_secret : string)
  : M (option dict) :=
  t0 <~ now ;
  let deadline := (t0 + TIMEOUT_SECONDS)%Z in
  async_with_playwright
    (acquire Browser ;;;
     acquire BrowserContext ;;;
     acquire Page ;;;
     acquire HttpClient ;;;
     chain_loop fuel deadline provided_secret
       {| current_url := start_url; last_response := JNull; colname := None |}).

(** [run_worker], lines 47 to 55. *)
Definition run_worker (fuel : nat) (t : task) : M worker_report :=
  start <~ now ;
  try_except
    (result <~ solve_quiz_chain_json fuel (task_url t) (task_secret t) ;
     finish <~ now ;
     ret (Finished (finish - start) result))
    (fun e => ret (Failed e)).

End Main.

(** ** The start of a run (lines 29 to 33)

    [solve_quiz_chain] above is the function in the runs in which
    Playwright, the browser, its context, the page and the HTTP client
    start.  Each of the five calls can raise (a browser that is not
    installed, a driver that does not start), and each stands outside
    every [try]: the exception leaves the function, through the context
    manager once that is entered.  [solve_quiz_chain_launching] is the
    function with these failures. *)

Class Launcher : Type := {
  (** [async_playwright().__aenter__()], [pw.chromium.launch(...)],
      [browser.new_context(...)], [context.new_page()] and
      [httpx.AsyncClient(...)], each a function of the history. *)
  env_launch : list event -> resource -> string + unit;
}.

Section Launch.
Context {lib : PyLib} {env : Env} {cfg : Config} {launcher : Launcher}.

(** One of the five calls: the resource is held only when the call
    returns. *)
Definition launch (r : resource) : M unit :=
  fun log =>
    match env_launch log r with
    | inl e => (inl e, log)
    | inr _ => (inr tt, (log ++ [EvAcquire r])%list)
    end.

(** Lines 30 to 33. *)
Definition startup : M unit :=
  launch Browser ;;; launch BrowserContext ;;; launch Page ;;; launch HttpClient.

(** [async with async_playwright() as pw: body]: when entering raises,
    the body does not run and there is nothing to leave. *)
Definition async_with_launched_playwright {A} (body : M A) : M A :=
  fun log =>
    match launch Playwright log with
    | (inl e, log') => (inl e, log')
    | (inr _, log') =>
        let '(r, log'') := body log' in
        (r, (log'' ++ [EvClose Playwright])%list)
    end.

Definition solve_quiz_chain_launching (fuel : nat) (start_url : json)
    (provided_secret : string) : M (option dict) :=
  t0 <~ now ;
  let deadline := (t0 + TIMEOUT_SECONDS)%Z in
  async_with_launched_playwright
    (startup ;;;
     chain_loop fuel deadline provided_secret
       {| current_url := start_url; last_response := JNull; colname := None |}).

End Launch.

(** ** The vocabulary of the further statements *)

(** A character occurs in a text. *)
Fixpoint has_char (p : ascii -> bool) (s : string) : bool :=
  match s with
  | EmptyString => false
  | String c r => p c || has_char p r
  end.

(** An event that closes a resource. *)
Definition is_close (e : event) : bool :=
  match e with EvClose _ => true | _ => false end.

(** The answer and the tag of a cascade of the source are those the
    specification's cascade produced. *)
Definition agrees (a : cascade) (p : produced) : Prop :=
  match p with
  | Some (v, tag) => is_none v = false /\ answer a = v /\ meta_method a = Some tag
  | None => answer a = JNull
  end.



(** The page a history is at: the URL of its last navigation. *)
Fixpoint page_after (cur : option json) (evs : list event) : option json :=
  match evs with
  | [] => cur
  | EvGoto u :: rest => page_after (Some u) rest
  | _ :: rest => page_after cur rest
  end.

(** Every post of a run of events carries the identity fields, its [url]
    being the URL of the page the run is at, which is true. *)
Fixpoint posts_answer_page {cfg : Config} (secret : string) (cur : option json)
    (evs : list event) : Prop :=
  match evs with
  | [] => True
  | EvGoto u :: rest => posts_answer_page secret (Some u) rest
  | EvPost _ p :: rest =>
      (exists u, cur = Some u /\ truthy u = true /\ carries_identity secret u p)
      /\ posts_answer_page secret cur rest
  | _ :: rest => posts_answer_page secret cur rest
  end.

(** An event that neither navigates nor posts. *)
Definition silent (e : event) : Prop :=
  match e with
  | EvGoto _ | EvPost _ _ => False
  | _ => True
  end.

(** [answers_pages secret c]: from any history and whatever page it is
    at, every post that [c] makes answers the page [c] itself navigated to
    last. *)
Definition answers_pages {cfg : Config} {A} (secret : string) (c : M A) : Prop :=
  forall log, exists evs,
    snd (c log) = (log ++ evs)%list
    /\ forall cur, posts_answer_page secret cur evs.

(** An event that posts a payload. *)
Definition is_post (e : event) : bool :=
  match e with EvPost _ _ => true | _ => false end.

(** A cascade whose answer, when there is one, has its method tag. *)
Definition tagged (a : cascade) : Prop :=
  is_none (answer a) = false -> is_Some (meta_method a).

(** Lines 80 to 82: the binding of [colname] after a pass over a page
    with the visible text [page_plain], [col] being the binding before. *)
Definition colname_after (page_plain : string) (col : option string) : option string :=
  match search sum_column_re page_plain with
  | Some g1 => Some (strip g1)
  | None => col
  end.

(** A pass that ends the chain, and a chain that returned a result. *)
Definition is_done (f : flow) : bool :=
  match f with Done _ => true | Next _ => false end.

Definition is_result (r : option dict) : bool :=
  match r with Some _ => true | None => false end.

(** [closes_last fin c]: what [c] adds to a history is a run of events
    that close nothing, followed by the four closes when [c] returns a
    value that [fin] marks as final, and by nothing otherwise. *)
Definition closes_last {A} (fin : A -> bool) (c : M A) : Prop :=
  forall log, exists body,
    Forall (fun e => is_close e = false) body
    /\ snd (c log)
       = (log ++ body ++ match fst (c log) with
                         | inr a => if fin a then closes else []
                         | inl _ => []
                         end)%list.

(** The events that open a run of the chain. *)
Definition opening : list event :=
  [EvTime; EvAcquire Playwright; EvAcquire Browser; EvAcquire BrowserContext;
   EvAcquire Page; EvAcquire HttpClient].

(** ** Further pages, tables and worlds *)

Module Cases.
Import Reference Scenarios.

(** A table whose header row is in capitals. *)
Definition capitals_table : dataframe :=
  [(LStr "Name", [CStr "a"; CStr "b"]); (LStr "VALUE", [CNum 1; CNum 2])].

(** A table read without a header row: the labels are positions. *)
Definition headless_table : dataframe :=
  [(LInt 0, [CStr "a"; CStr "b"]); (LInt 1, [CNum 1; CNum 2])].

(** A decoder that is the reference one on the texts that open with a
    brace, and any other function elsewhere. *)
Definition brace_lib : PyLib := {|
  json_loads := fun s =>
    match s with
    | String c _ => if Ascii.eqb c "{" then loads s else Some ∅
    | EmptyString => Some ∅
    end;
  json_dumps := dumps;
  b64decode_utf8 := fun block => utf8_decode <$> b64decode block;
  utf8_decode_ignore := utf8_decode;
  py_float := decimal;
  pd_to_numeric := decimal;
  pd_read_html := fun _ => None;
  pd_read_csv := read_csv;
  pd_read_excel := fun _ => None;
  urljoin := join;
|}.

(** A page that names a column, and a server that sends the solver on. *)
Definition column_plain : string :=
  "What is the sum of the value column? Post your answer to https://x/submit".

Definition column_world : Env :=
  world [("https://x/q1", (column_plain, column_plain))] []
    [("https://x/submit", json_response (JObj {[ "url" := JStr "https://x/q-b" ]}))].

(** A page whose link to the data carries a query string. *)
Definition query_markup : string :=
  "<p>Download the data.</p><a href='https://x/data.csv?dl=1'>data</a>".

Definition query_world : Env :=
  world [("https://x/q1", (query_markup, csv_plain))]
    [("https://x/data.csv?dl=1", csv_file)] [].

(** A template whose [url] names a pdf file. *)
Definition pdf_template : dict :=
  {[ "email" := JStr "you@example.com";
     "secret" := JStr "s3cret";
     "url" := JStr "https://x/data.pdf" ]}.

(** A template with an empty [submit] and an empty [url]. *)
Definition blank_template : dict :=
  {[ "email" := JStr "you@example.com";
     "secret" := JStr "s3cret";
     "url" := JStr "";
     "submit" := JStr "" ]}.

(** A server that fails with a body that is no JSON. *)
Definition server_error : response :=
  {| status_code := 500; resp_text := "Internal Server Error"; resp_json := None |}.

Definition failing_world : Env :=
  world [("https://x/q1", (quiz_markup, quiz_plain))] []
    [("https://x/submit", server_error)].

(** A page that shows no URL and no brace. *)
Definition bare_world : Env :=
  world [("https://x/q1", ("<p>Hello</p>", "Hello"))] [] [].









(** A table with two columns of the same label. *)
Definition twin_table : dataframe :=
  [(LStr "v", [CNum 1]); (LStr "v", [CNum 2])].

(** A machine on which everything starts, and one without a browser. *)
Definition always_starts : Launcher := {| env_launch := fun _ _ => inr tt |}.

Definition no_browser : Launcher := {|
  env_launch := fun _ r =>
    match r with
    | Browser => inl "BrowserType.launch: Executable doesn't exist"
    | _ => inr tt
    end;
|}.

(** Bodies of requests to the endpoint. *)
Definition good_body : json :=
  JObj {[ "email" := JStr "you@example.com";
          "secret" := JStr "s3cret";
          "url" := JStr "https://x/q1" ]}.

Definition names_body : json := JArr [JStr "email"; JStr "secret"; JStr "url"].

End Cases.

(** * Properties *)

(** ** Text *)

Lemma find_char_spec (c : ascii) (s : string) (i : nat) :
  find_char c s = Some i ->
  String.get i s = Some c /\ (i < String.length s)%nat
  /\ forall j, (j < i)%nat -> String.get j s <> Some c.
Proof.
  revert i. induction s as [|a r IH]; intros i; simpl; [discriminate|].
  destruct (Ascii.eqb a c) eqn:E.
  - intros [= <-]. apply Ascii.eqb_eq in E. subst a.
    repeat split; [lia | intros j Hj; lia].
  - destruct (find_char c r) as [k|] eqn:F; simpl; [|discriminate].
    intros [= <-]. destruct (IH k eq_refl) as (Hg & Hl & Hn).
    repeat split; [exact Hg | lia |].
    intros [|j] Hj; simpl.
    + intros [= ->]. rewrite Ascii.eqb_refl in E. discriminate.
    + apply Hn. lia.
Qed.

Lemma find_char_none (c : ascii) (s : string) :
  find_char c s = None -> forall j, String.get j s <> Some c.
Proof.
  induction s as [|a r IH]; simpl; intros H j.
  - destruct j; discriminate.
  - destruct (Ascii.eqb a c) eqn:E; [discriminate|].
    destruct (find_char c r) eqn:F; [discriminate|].
    destruct j as [|j]; simpl.
    + intros [= ->]. rewrite Ascii.eqb_refl in E. discriminate.
    + now apply IH.
Qed.

Section UtilsFacts.
Context {lib : PyLib}.

(** The candidate loop returns the parse of the longest candidate that
    parses. *)
Lemma try_slices_some (text : string) (start n : nat) (obj : dict) :
  try_slices text start n = Some obj <->
  exists m, (1 <= m <= n)%nat
    /\ json_loads (slice text start (start + m)) = Some obj
    /\ forall m', (m < m' <= n)%nat -> json_loads (slice text start (start + m')) = None.
Proof.
  induction n as [|n IH]; simpl.
  - split; [discriminate | intros (m & Hm & _); lia].
  - destruct (json_loads (slice text start (start + S n))) as [o|] eqn:E.
    + split.
      * intros [= <-]. exists (S n). repeat split; [lia | lia | exact E | intros; lia].
      * intros (m & Hm & Hl & Hmax).
        destruct (decide (m = S n)) as [->|Hne]; [congruence|].
        rewrite Hmax in E by lia. discriminate.
    + rewrite IH. split; intros (m & Hm & Hl & Hmax); exists m.
      * repeat split; [lia | lia | exact Hl |].
        intros m' Hm'. destruct (decide (m' = S n)) as [->|Hne]; [exact E | apply Hmax; lia].
      * destruct (decide (m = S n)) as [->|Hne]; [congruence|].
        repeat split; [lia | lia | exact Hl | intros; apply Hmax; lia].
Qed.

Lemma try_slices_none (text : string) (start n : nat) :
  try_slices text start n = None <->
  forall m, (1 <= m <= n)%nat -> json_loads (slice text start (start + m)) = None.
Proof.
  induction n as [|n IH]; simpl.
  - split; [intros _ m Hm; lia | reflexivity].
  - destruct (json_loads (slice text start (start + S n))) as [o|] eqn:E.
    + split; [discriminate | intros H; rewrite H in E by lia; discriminate].
    + rewrite IH. split; intros H m Hm.
      * destruct (decide (m = S n)) as [->|Hne]; [exact E | apply H; lia].
      * apply H; lia.
Qed.

(** C9.  [try_parse_json_from_text] looks for the first opening brace.
    Without one it produces nothing.  With one at index [start], it
    returns the parse of the longest slice [text[start:e]] that
    [json.loads] accepts, the slices being tried from the whole remainder
    down to a single character, and produces nothing exactly when no
    slice parses. *)
Theorem try_parse_json_longest_span (text : string) :
  match find_char "{" text with
  | None =>
      (forall j, String.get j text <> Some "{"%char)
      /\ try_parse_json_from_text text = None
  | Some start =>
      String.get start text = Some "{"%char
      /\ (forall j, (j < start)%nat -> String.get j text <> Some "{"%char)
      /\ (forall obj,
            try_parse_json_from_text text = Some obj <->
            exists e, (start < e <= String.length text)%nat
              /\ json_loads (slice text start e) = Some obj
              /\ forall e', (e < e' <= String.length text)%nat ->
                   json_loads (slice text start e') = None)
      /\ (try_parse_json_from_text text = None <->
          forall e, (start < e <= String.length text)%nat ->
            json_loads (slice text start e) = None)
  end.
Proof.
  unfold try_parse_json_from_text.
  destruct (find_char "{" text) as [start|] eqn:F.
  - destruct (find_char_spec _ _ _ F) as (Hg & Hl & Hfirst).
    split; [exact Hg|]. split; [exact Hfirst|]. split.
    + intros obj. rewrite try_slices_some. split.
      * intros (m & Hm & Hp & Hmax). exists (start + m)%nat.
        repeat split; [lia | lia | exact Hp |].
        intros e' He'. replace e' with (start + (e' - start))%nat by lia.
        apply Hmax. lia.
      * intros (e & He & Hp & Hmax). exists (e - start)%nat.
        replace (start + (e - start))%nat with e by lia.
        repeat split; [lia | lia | exact Hp |].
        intros m' Hm'. apply Hmax. lia.
    + rewrite try_slices_none. split; intros H.
      * intros e He. replace e with (start + (e - start))%nat by lia. apply H. lia.
      * intros m Hm. apply H. lia.
  - split; [now apply find_char_none | reflexivity].
Qed.

End UtilsFacts.

(** ** Computations *)

Lemma bind_ok {A B} (c : M A) (k : A -> M B) log a log' :
  c log = (inr a, log') -> bind c k log = k a log'.
Proof. intros H. unfold bind. now rewrite H. Qed.

Lemma bind_err {A B} (c : M A) (k : A -> M B) log e log' :
  c log = (inl e, log') -> bind c k log = (inl e, log').
Proof. intros H. unfold bind. now rewrite H. Qed.

Lemma bind_ret {A B} (a : A) (k : A -> M B) log : bind (ret a) k log = k a log.
Proof. reflexivity. Qed.

Lemma bind_bind {A B C} (c : M A) (k : A -> M B) (k' : B -> M C) log :
  bind (bind c k) k' log = bind c (fun a => bind (k a) k') log.
Proof. unfold bind. destruct (c log) as [[e|a] log']; reflexivity. Qed.

Lemma try_except_ok {A} (c : M A) (h : string -> M A) log a log' :
  c log = (inr a, log') -> try_except c h log = (inr a, log').
Proof. intros H. unfold try_except. now rewrite H. Qed.


(** ** The answer cascade *)

Section CascadeFacts.
Context {lib : PyLib} {env : Env} {cfg : Config}.










Lemma template_step_open template a :
  is_none (answer a) = true ->
  template_step template a
  = match template with
    | Some t => if truthy (JObj t) then template_body t a else ret a
    | None => ret a
    end.
Proof.
  intros H. unfold template_step. rewrite H.
  destruct template as [t|]; [|reflexivity]. cbn [andb truthy_dict].
  now destruct (truthy (JObj t)).
Qed.

Lemma decoded_step_open decoded a :
  is_none (answer a) = true ->
  decoded_step decoded a
  = match decoded with
    | Some d => if negb (String.eqb d "") then decoded_body d a else a
    | None => a
    end.
Proof.
  intros H. unfold decoded_step. rewrite H.
  destruct decoded as [d|]; [|reflexivity]. cbn [andb truthy_str].
  now destruct (negb (String.eqb d "")).
Qed.


End CascadeFacts.

(** ** Link discovery *)

Lemma lower_substring (s : string) (n m : nat) :
  lower (substring n m s) = substring n m (lower s).
Proof.
  revert n m. induction s as [|c r IH]; intros [|n] [|m]; simpl; try reflexivity.
  - now rewrite IH.
  - apply IH.
  - apply IH.
Qed.

(** A lower-case needle found in a text is found in the lower-cased text. *)
Lemma contains_lower (p c : string) :
  p <> EmptyString -> lower p = p -> contains p c = true -> contains p (lower c) = true.
Proof.
  unfold contains. intros Hne Hp H.
  destruct (index 0 p c) as [m|] eqn:I; [|discriminate].
  apply index_correct1 in I.
  destruct (index 0 p (lower c)) eqn:J; [reflexivity|].
  exfalso. apply (index_correct3 0 m p (lower c) J Hne); [lia|].
  now rewrite <- lower_substring, I.
Qed.

Lemma findall_Forall {A} (P : A -> Prop) (m : string -> option (A * string)) :
  (forall s a rest, m s = Some (a, rest) -> P a) ->
  forall fuel s, Forall P (findall m fuel s).
Proof.
  intros Hm. induction fuel as [|fuel IH]; intros s; simpl; [constructor|].
  destruct s as [|c r]; [constructor|].
  destruct (m (String c r)) as [[a rest]|] eqn:E; [|apply IH].
  constructor; [eapply Hm; eauto | apply IH].
Qed.

Lemma append_nonempty (a b : string) : b <> EmptyString -> (a ++ b)%string <> EmptyString.
Proof.
  intros Hb. destruct a as [|c a]; [exact Hb|].
  change (String c a ++ b)%string with (String c (a ++ b)). discriminate.
Qed.

Lemma url_re_nonempty (s u rest : string) : url_re s = Some (u, rest) -> u <> EmptyString.
Proof.
  unfold url_re.
  destruct (if startswith "https://" s then Some 8%nat
            else if startswith "http://" s then Some 7%nat else None) as [n|];
    [|discriminate].
  destruct (span is_url_char (drop_str n s)) as [body rest'].
  destruct body as [|b body']; [discriminate|].
  intros [= <- _]. now apply append_nonempty.
Qed.

Lemma find_pointwise {A} (f g : A -> bool) (l : list A) :
  (forall x, f x = g x) -> List.find f l = List.find g l.
Proof. intros H. induction l as [|x l IH]; simpl; [reflexivity|]. now rewrite H, IH. Qed.

Lemma truthy_nonempty (s : string) : s <> EmptyString -> truthy (JStr s) = true.
Proof. destruct s; [congruence | reflexivity]. Qed.

(** The test of the candidate loop is a case-insensitive search for
    [submit] or [answer]. *)
Lemma is_submit_like_lower (c : string) :
  is_submit_like c = contains "submit" (lower c) || contains "answer" (lower c).
Proof.
  unfold is_submit_like.
  destruct (contains "submit" c) eqn:E; [|reflexivity].
  now rewrite (contains_lower "submit" c) by (try discriminate; auto).
Qed.

(** C4, as the code has it.  The candidates are the URL-looking tokens of
    the visible text [page_plain], in order (the markup is not searched).
    The guess is the first candidate that contains [submit] or [answer]
    when compared in lower case; when no candidate does, it is the first
    candidate; when the text has no URL there is no guess. *)
Theorem guess_submit_url_first_submit_or_first (page_plain : string) :
  let candidates := findall url_re (String.length page_plain) page_plain in
  guess_submit_url page_plain =
  match List.find (fun c => contains "submit" (lower c) || contains "answer" (lower c))
          candidates with
  | Some c => JStr c
  | None =>
      match candidates with
      | c0 :: _ => JStr c0
      | [] => JNull
      end
  end.
Proof.
  intros candidates. unfold guess_submit_url, search. fold candidates.
  assert (Hne : Forall (fun u => u <> EmptyString) candidates)
    by (apply findall_Forall; intros s u rest; apply url_re_nonempty).
  rewrite (find_pointwise _ _ candidates is_submit_like_lower).
  destruct candidates as [|c0 cs]; [reflexivity|]. cbn [head].
  destruct (List.find _ (c0 :: cs)) as [c|] eqn:F; cbn [opt_json].
  - apply find_some in F. destruct F as [Hin _].
    rewrite Forall_forall in Hne.
    rewrite truthy_nonempty; [reflexivity|].
    apply Hne. now apply list_elem_of_In.
  - reflexivity.
Qed.

(** C4, as the claim words it, fails: a submit URL that stands in an
    attribute of the markup and not in the visible text is not a candidate,
    and the page yields no guess. *)
Lemma link_guess_ignores_markup :
  let markup := "<a href='https://x/submit'>Post here</a>" in
  let plain := "Post here" in
  findall url_re (String.length markup) markup = ["https://x/submit"]
  /\ @extract_signals Reference.lib markup plain = (None, None, JNull).
Proof. vm_compute. split; reflexivity. Qed.

(** ** What a computation adds to the history *)

Lemma emits_ret {A} P (Q : A -> Prop) (a : A) : Q a -> emits P Q (ret a).
Proof.
  intros Ha log. exists []. cbn. rewrite app_nil_r.
  repeat split; [constructor | now intros ? [= <-]].
Qed.

Lemma emits_raise {A} P (Q : A -> Prop) (e : string) : emits P Q (raise e).
Proof.
  intros log. exists []. cbn. rewrite app_nil_r.
  repeat split; [constructor | discriminate].
Qed.

Lemma emits_bind {A B} P (Q : A -> Prop) (R : B -> Prop) (c : M A) (k : A -> M B) :
  emits P Q c -> (forall a, Q a -> emits P R (k a)) -> emits P R (bind c k).
Proof.
  intros Hc Hk log. destruct (Hc log) as (evs & Hs & Hf & Hq).
  unfold bind. destruct (c log) as [[e|a] log1]; cbn in *; subst log1.
  - exists evs. repeat split; [exact Hf | discriminate].
  - destruct (Hk a (Hq a eq_refl) (log ++ evs)%list) as (evs2 & Hs2 & Hf2 & Hq2).
    exists (evs ++ evs2)%list. rewrite Hs2, app_assoc.
    repeat split; [now apply Forall_app | exact Hq2].
Qed.

Lemma emits_try_except {A} P (Q : A -> Prop) (c : M A) (h : string -> M A) :
  emits P Q c -> (forall e, emits P Q (h e)) -> emits P Q (try_except c h).
Proof.
  intros Hc Hh log. destruct (Hc log) as (evs & Hs & Hf & Hq).
  unfold try_except. destruct (c log) as [[e|a] log1]; cbn in *; subst log1.
  - destruct (Hh e (log ++ evs)%list) as (evs2 & Hs2 & Hf2 & Hq2).
    exists (evs ++ evs2)%list. rewrite Hs2, app_assoc.
    repeat split; [now apply Forall_app | exact Hq2].
  - exists evs. repeat split; [exact Hf | exact Hq].
Qed.

Lemma emits_weaken {A} P (Q Q' : A -> Prop) (c : M A) :
  emits P Q c -> (forall a, Q a -> Q' a) -> emits P Q' c.
Proof.
  intros Hc HQ log. destruct (Hc log) as (evs & Hs & Hf & Hq).
  exists evs. repeat split; auto.
Qed.

Lemma emits_one {A} P (Q : A -> Prop) (e : event) (r : list event -> string + A) :
  P e -> (forall log a, r log = inr a -> Q a) ->
  emits P Q (fun log => (r log, (log ++ [e])%list)).
Proof.
  intros He Hr log. exists [e]. cbn.
  repeat split; [now constructor | apply Hr].
Qed.

Lemma emits_emit P (e : event) : P e -> emits P any (emit e).
Proof. intros He. apply (emits_one P any e (fun _ => inr tt)); [exact He | easy]. Qed.

Lemma emits_lift_opt {A} P (msg : string) (o : option A) : emits P any (lift_opt msg o).
Proof. destruct o; [now apply emits_ret | apply emits_raise]. Qed.

Section WorkerFrames.
Context {lib : PyLib} {env : Env} {cfg : Config}.
Variable P : event -> Prop.
Hypothesis P_get : forall u, P (EvGet u).

Lemma emits_fetch_bytes u : emits P any (fetch_bytes u).
Proof. apply emits_one; [apply P_get | easy]. Qed.

Lemma emits_column_sum_step page_plain page_text col a :
  emits P any (column_sum_step page_plain page_text col a).
Proof.
  unfold column_sum_step.
  destruct (search sum_column_re page_plain) as [g1|]; [|now apply emits_ret].
  destruct (parse_table_html_to_df page_text) as [df|]; [|now apply emits_ret].
  eapply emits_bind; [apply emits_lift_opt|]. intros v _.
  destruct (negb (is_none v)); now apply emits_ret.
Qed.

Lemma emits_table_branch tag_sum tag_first df col a :
  emits P any (table_branch tag_sum tag_first df col a).
Proof.
  unfold table_branch. destruct col as [colname|]; [|now apply emits_ret].
  eapply emits_bind; [apply emits_lift_opt|]. intros v _.
  destruct (negb (is_none v)); now apply emits_ret.
Qed.

Lemma emits_linked_file_step url page_text col a :
  emits P any (linked_file_step url page_text col a).
Proof.
  unfold linked_file_step, linked_file_body.
  destruct (is_none (answer a)); [|now apply emits_ret].
  destruct (List.find _ _); [|now apply emits_ret].
  apply emits_try_except; [|intros e; now apply emits_ret].
  eapply emits_bind; [apply emits_fetch_bytes|]. intros content _.
  repeat match goal with
         | |- emits _ _ (if ?b then _ else _) => destruct b
         end;
    try (now apply emits_ret);
    (eapply emits_bind; [apply emits_lift_opt|]; intros df _; apply emits_table_branch).
Qed.

Lemma emits_template_step template a : emits P any (template_step template a).
Proof.
  unfold template_step, template_body.
  destruct (is_none (answer a) && truthy_dict template); [|now apply emits_ret].
  destruct template as [payload|]; [|now apply emits_ret].
  destruct (dict_has payload "answer" && is_scalar (dict_get payload "answer"));
    [now apply emits_ret|].
  destruct (dict_has payload "url"); [|now apply emits_ret].
  destruct (dict_get_default payload "url" (JStr "")) as [ | | |u| | ];
    try apply emits_raise.
  destruct (is_data_url u); [|now apply emits_ret].
  apply emits_try_except; [|intros e; now apply emits_ret].
  eapply emits_bind; [apply emits_fetch_bytes|]. intros c _.
  destruct (endswith ".csv" u); [|now apply emits_ret].
  eapply emits_bind; [apply emits_lift_opt|]. intros df _. now apply emits_ret.
Qed.

(** The cascade calls the world only to fetch files. *)
Lemma emits_resolve_answer url page_text page_plain template decoded col :
  emits P any (resolve_answer url page_text page_plain template decoded col).
Proof.
  unfold resolve_answer.
  eapply emits_bind; [apply emits_column_sum_step|]. intros [col' a] _.
  eapply emits_bind; [apply emits_linked_file_step|]. intros a2 _.
  eapply emits_bind; [apply emits_template_step|]. intros a4 _.
  now apply emits_ret.
Qed.

End WorkerFrames.

(** ** The payload *)

Section PayloadFacts.
Context {lib : PyLib} {env : Env} {cfg : Config}.

Lemma truthy_not_none (v : json) : truthy v = true -> is_none v = false.
Proof. destruct v; simpl; congruence. Qed.

Lemma build_payload_identity secret u a :
  carries_identity secret u (build_payload secret u a).
Proof.
  unfold carries_identity, build_payload.
  destruct (is_none (answer a)); repeat split; now simplify_map_eq.
Qed.

Lemma lookup_non_null (p : dict) k v :
  p !! k = Some v -> is_none v = false -> non_null p !! k = Some v.
Proof. intros Hk Hv. unfold non_null. now apply map_lookup_filter_Some. Qed.

Lemma lookup_non_null_unset (p : dict) k :
  p !! k = None \/ p !! k = Some JNull -> non_null p !! k = None.
Proof.
  intros H. unfold non_null. apply map_lookup_filter_None.
  destruct H as [H|H]; [now left | right].
  intros v Hv. rewrite H in Hv. injection Hv as <-. cbn. discriminate.
Qed.

(** The merge rule: a computed field that is not null overwrites the
    template. *)
Lemma merge_template_overwrites template (p : dict) k v :
  p !! k = Some v -> is_none v = false -> merge_template template p !! k = Some v.
Proof.
  intros Hk Hv. unfold merge_template.
  destruct template as [t|]; [|exact Hk].
  destruct (truthy (JObj t)); [|exact Hk].
  apply lookup_union_Some_l. now apply lookup_non_null.
Qed.

(** The merge rule: the template decides the fields the computed payload
    leaves unset. *)
Lemma merge_template_fills (t p : dict) k :
  truthy (JObj t) = true -> p !! k = None \/ p !! k = Some JNull ->
  merge_template (Some t) p !! k = t !! k.
Proof.
  intros Ht H. unfold merge_template. rewrite Ht.
  now rewrite lookup_union_r by now apply lookup_non_null_unset.
Qed.

Lemma merged_payload_identity template secret u a :
  truthy u = true ->
  carries_identity secret u (merge_template template (build_payload secret u a)).
Proof.
  intros Hu. destruct (build_payload_identity secret u a) as (He & Hs & Hurl).
  repeat split; apply merge_template_overwrites; auto using truthy_not_none.
Qed.

(** *** The events of the loop *)

Variable P : event -> Prop.
Hypothesis P_goto : forall u, P (EvGoto u).
Hypothesis P_get : forall u, P (EvGet u).
Hypothesis P_close : forall r, P (EvClose r).

Lemma emits_close_all : emits P any close_all.
Proof.
  unfold close_all, close.
  repeat (eapply emits_bind; [apply emits_emit, P_close | intros ? _]).
  apply emits_emit, P_close.
Qed.

Lemma emits_prepare secret st url page_text page_plain :
  emits P (fun r => truthy (current_url st) = true ->
                    carries_identity secret (current_url st) (snd (fst r)))
    (prepare secret st url page_text page_plain).
Proof.
  unfold prepare.
  destruct (extract_signals page_text page_plain) as [[decoded template] submit_url].
  eapply emits_bind; [apply emits_resolve_answer, P_get|]. intros [col a] _.
  apply emits_ret. cbn. now apply merged_payload_identity.
Qed.

Lemma emits_submit st col submit_url payload :
  P (EvPost submit_url payload) -> emits P any (submit st col submit_url payload).
Proof.
  intros Hp. unfold submit.
  destruct (negb (truthy submit_url)).
  - eapply emits_bind; [apply emits_close_all | intros ? _; now apply emits_ret].
  - apply emits_try_except.
    + eapply emits_bind; [apply (emits_one P any); [exact Hp | easy]|].
      intros r _. cbn zeta.
      destruct (truthy (next_url (response_json r))); [now apply emits_ret|].
      eapply emits_bind; [apply emits_close_all | intros ? _; now apply emits_ret].
    + intros e.
      eapply emits_bind; [apply emits_close_all | intros ? _; now apply emits_ret].
Qed.

Lemma emits_render url : emits P any (render url).
Proof.
  intros log. exists [EvGoto url]. unfold render.
  destruct url; cbn; repeat split; try (constructor; [apply P_goto | constructor]); easy.
Qed.

Lemma emits_iteration secret st :
  (forall url p,
     (truthy (current_url st) = true -> carries_identity secret (current_url st) p) ->
     P (EvPost url p)) ->
  emits P any (iteration secret st).
Proof.
  intros Hpost. unfold iteration.
  eapply emits_bind; [apply emits_render|]. intros [page_text page_plain] _.
  eapply emits_bind; [apply emits_prepare|]. intros [[col payload] submit_url] Hid.
  apply emits_submit. apply Hpost. exact Hid.
Qed.

Hypothesis P_time : P EvTime.

Lemma emits_loop_test deadline st :
  emits P (fun go => go = true -> truthy (current_url st) = true) (loop_test deadline st).
Proof.
  unfold loop_test. destruct (truthy (current_url st)).
  - eapply emits_bind; [apply (emits_one P any); [exact P_time | easy]|].
    intros t _. now apply emits_ret.
  - now apply emits_ret.
Qed.

Lemma emits_chain_loop secret deadline :
  (forall u url p, truthy u = true -> carries_identity secret u p -> P (EvPost url p)) ->
  forall fuel st, emits P any (chain_loop fuel deadline secret st).
Proof.
  intros Hpost. induction fuel as [|fuel IH]; intros st; cbn [chain_loop].
  - now apply emits_ret.
  - eapply emits_bind; [apply emits_loop_test|]. intros [|] Hgo.
    + eapply emits_bind.
      * apply emits_iteration. intros url p Hid.
        apply (Hpost (current_url st)); auto.
      * intros [st'|result] _; [apply IH | now apply emits_ret].
    + eapply emits_bind; [apply emits_close_all | intros ? _; now apply emits_ret].
Qed.

Hypothesis P_acquire : forall r, P (EvAcquire r).

Lemma emits_async_with_playwright {A} (Q : A -> Prop) (body : M A) :
  emits P Q body -> emits P Q (async_with_playwright body).
Proof.
  intros Hb log. unfold async_with_playwright, acquire.
  assert (Hc : emits P Q (emit (EvAcquire Playwright) ;;; body)).
  { eapply emits_bind; [apply emits_emit, P_acquire | intros ? _; exact Hb]. }
  destruct (Hc log) as (evs & Hs & Hf & Hq).
  destruct ((emit (EvAcquire Playwright) ;;; body) log) as [r log1]; cbn in *.
  subst log1. exists (evs ++ [EvClose Playwright])%list. rewrite app_assoc.
  repeat split; [|exact Hq].
  apply Forall_app. split; [exact Hf | constructor; [apply P_close | constructor]].
Qed.

Lemma emits_solve_quiz_chain fuel start secret :
  (forall u url p, truthy u = true -> carries_identity secret u p -> P (EvPost url p)) ->
  emits P any (solve_quiz_chain fuel start secret).
Proof.
  intros Hpost. unfold solve_quiz_chain, acquire.
  eapply emits_bind; [apply (emits_one P any); [exact P_time | easy]|]. intros t0 _.
  apply emits_async_with_playwright.
  repeat (eapply emits_bind; [apply emits_emit, P_acquire | intros ? _]).
  now apply emits_chain_loop.
Qed.

End PayloadFacts.

(** ** The chain *)

Section ChainFacts.
Context {lib : PyLib} {env : Env} {cfg : Config}.

Lemma close_all_log log : close_all log = (inr tt, (log ++ closes)%list).
Proof.
  unfold close_all, close, emit, bind, closes. cbn.
  now rewrite <- !app_assoc.
Qed.

(** C10.  Every payload that a run of the chain posts carries the fields
    [email], [secret] and [url], with the configured e-mail, the secret of
    the caller and the current URL as values; this holds whatever the
    answer is (null included) and with or without a payload template,
    because in the merge every computed field that is not null overwrites
    the field of the template, which decides only the fields the computed
    payload leaves unset. *)
Theorem posted_payload_carries_identity
    (fuel : nat) (start_url provided_secret : string) (log : list event) :
  (exists evs,
      snd (solve_quiz_chain fuel start_url provided_secret log) = (log ++ evs)%list
      /\ Forall (posted_with_identity provided_secret) evs)
  /\ (forall template u a,
        truthy u = true ->
        carries_identity provided_secret u
          (merge_template template (build_payload provided_secret u a)))
  /\ (forall template u a k v,
        build_payload provided_secret u a !! k = Some v -> is_none v = false ->
        merge_template template (build_payload provided_secret u a) !! k = Some v)
  /\ (forall t u a k,
        truthy (JObj t) = true ->
        build_payload provided_secret u a !! k = None
        \/ build_payload provided_secret u a !! k = Some JNull ->
        merge_template (Some t) (build_payload provided_secret u a) !! k = t !! k).
Proof.
  split; [|split; [|split]].
  4:{ intros t u a k. apply merge_template_fills. }
  - destruct (emits_solve_quiz_chain (posted_with_identity provided_secret))
      with (fuel := fuel) (start := start_url) (secret := provided_secret) (log := log)
      as (evs & Hs & Hf & _); try easy.
    + intros u url p Hu Hid. cbn. eauto.
    + eauto.
  - intros template u a Hu. now apply merged_payload_identity.
  - intros template u a k v. apply merge_template_overwrites.
Qed.

(** C3.  The clock is read at the loop test and nowhere inside a pass:
    (a) a loop test that finds the deadline reached ends the chain with
    [success = False] and the reason 'timeout or loop ended', after
    closing the resources and without any navigation, fetch or post;
    (b) a pass through the loop body reads no clock, so nothing cuts a
    navigation, fetch or post short; (c) a pass begun before the deadline
    runs to its end whatever the clock does meanwhile. *)
Theorem deadline_checked_between_iterations
    (fuel : nat) (deadline : Z) (provided_secret : string)
    (st : loop_state) (log : list event) :
  ((deadline <= env_time log)%Z ->
     chain_loop (S fuel) deadline provided_secret st log
     = (inr (Some (timeout_result (last_response st))),
        (log ++ (if truthy (current_url st) then [EvTime] else []) ++ closes)%list)
     /\ timeout_result (last_response st) !! "success" = Some (JBool false)
     /\ timeout_result (last_response st) !! "reason" = Some (JStr "timeout or loop ended"))
  /\ (exists evs,
        snd (iteration provided_secret st log) = (log ++ evs)%list
        /\ Forall (fun e => e <> EvTime) evs)
  /\ (truthy (current_url st) = true -> (env_time log < deadline)%Z ->
        chain_loop (S fuel) deadline provided_secret st log
        = bind (iteration provided_secret st)
            (fun f => match f with
                      | Next st' => chain_loop fuel deadline provided_secret st'
                      | Done result => ret (Some result)
                      end)
            (log ++ [EvTime])%list).
Proof.
  split; [|split].
  - intros Hd. split; [|split; reflexivity].
    cbn [chain_loop]. unfold loop_test.
    destruct (truthy (current_url st)).
    + unfold now. unfold bind at 1 2. cbn.
      assert (Hlt : (env_time log <? deadline)%Z = false) by now apply Z.ltb_ge.
      rewrite Hlt. unfold bind. rewrite close_all_log. cbn.
      now rewrite <- app_assoc.
    + rewrite bind_ret. unfold bind. rewrite close_all_log. reflexivity.
  - destruct (emits_iteration (fun e => e <> EvTime)) with
      (secret := provided_secret) (st := st) (log := log) as (evs & Hs & Hf & _);
      try easy.
    eauto.
  - intros Hu Hlt. cbn [chain_loop]. unfold loop_test. rewrite Hu.
    unfold now. unfold bind at 1 2. cbn.
    apply Z.ltb_lt in Hlt. now rewrite Hlt.
Qed.

Lemma chain_loop_continues fuel deadline secret st st' log log' :
  loop_test deadline st log = (inr true, log') ->
  forall log'', iteration secret st log' = (inr (Next st'), log'') ->
  chain_loop (S fuel) deadline secret st log = chain_loop fuel deadline secret st' log''.
Proof.
  intros Ht log'' Hi. cbn [chain_loop].
  rewrite (bind_ok _ _ _ _ _ Ht). now rewrite (bind_ok _ _ _ _ _ Hi).
Qed.

(** C2, as the code has it.  After a post that did not raise, the
    continuation URL is the [url] field of the response body when its
    value is true, else the [next] field; when that value is true the pass
    ends with [current_url] replaced by it (and the loop goes on from
    there); when it is not (both fields missing, null, empty, zero or
    false, or a body that is not an object) the chain returns
    [success = True] with the final response and the submitted payload. *)
Theorem continuation_reads_url_then_next
    (st : loop_state) (col : option string) (submit_url : json) (payload : dict)
    (log : list event) (r : response) :
  truthy submit_url = true ->
  env_post log submit_url payload = inr r ->
  let resp := response_json r in
  let posted := (log ++ [EvPost submit_url payload])%list in
  (forall d, resp = JObj d ->
     next_url resp
     = if truthy (dict_get d "url") then dict_get d "url" else dict_get d "next")
  /\ (truthy (next_url resp) = true ->
        submit st col submit_url payload log
        = (inr (Next {| current_url := next_url resp; last_response := resp;
                        colname := col |}), posted)
        /\ forall fuel deadline secret st0 log0 log1,
             loop_test deadline st0 log0 = (inr true, log1) ->
             forall log2,
             iteration secret st0 log1
             = (inr (Next {| current_url := next_url resp; last_response := resp;
                             colname := col |}), log2) ->
             chain_loop (S fuel) deadline secret st0 log0
             = chain_loop fuel deadline secret
                 {| current_url := next_url resp; last_response := resp; colname := col |}
                 log2)
  /\ (truthy (next_url resp) = false ->
        submit st col submit_url payload log
        = (inr (Done (success_result resp payload)), (posted ++ closes)%list)
        /\ success_result resp payload !! "success" = Some (JBool true)
        /\ success_result resp payload !! "final_response" = Some resp
        /\ success_result resp payload !! "submitted" = Some (JObj payload)).
Proof.
  intros Hu Hp resp posted.
  assert (Hpost : post submit_url payload log = (inr r, posted))
    by (unfold post; now rewrite Hp).
  split; [|split].
  - intros d ->. reflexivity.
  - intros Hn. split.
    + unfold submit. rewrite Hu. cbn [negb].
      erewrite try_except_ok; [reflexivity|].
      rewrite (bind_ok _ _ _ _ _ Hpost). fold resp. now rewrite Hn.
    + intros fuel deadline secret st0 log0 log1 Ht log2 Hi.
      now apply (chain_loop_continues _ _ _ _ _ _ _ Ht).
  - intros Hn. split; [|repeat split].
    unfold submit. rewrite Hu. cbn [negb].
    erewrite try_except_ok; [reflexivity|].
    rewrite (bind_ok _ _ _ _ _ Hpost). fold resp. rewrite Hn.
    unfold bind. now rewrite close_all_log.
Qed.

(** C5, as the code has it.  The template is the object parsed from the
    visible text when it is non-empty and has the keys [email], [secret]
    and [url]; failing that it is the parsed object (from the visible
    text, else from the markup) when it is non-empty and its
    serialisation contains [submit] in lower case; otherwise there is no
    template.  When there is one, its [submit] field, or failing that its
    [url] field, is the submit target as soon as its value is true. *)
Theorem template_detection_and_target
    (parsed_json jsn : option dict) (guess : json) :
  let by_keys :=
    match jsn with
    | Some j => truthy (JObj j) && has_template_keys j
    | None => false
    end in
  let by_submit :=
    match parsed_json with
    | Some d => truthy (JObj d) && contains "submit" (lower (json_dumps d))
    | None => false
    end in
  let template := fst (detect_template parsed_json jsn guess) in
  let submit_url := snd (detect_template parsed_json jsn guess) in
  template = (if by_keys then jsn else if by_submit then parsed_json else None)
  /\ (forall t, jsn = Some t -> has_template_keys t = true -> template = Some t)
  /\ (forall t, template = Some t ->
        let possible := py_or (dict_get t "submit") (dict_get t "url") in
        truthy possible = true ->
        final_submit_url template submit_url = possible).
Proof.
  intros by_keys by_submit template submit_url.
  assert (Hkeys : forall t, has_template_keys t = true -> truthy (JObj t) = true).
  { intros t Ht. cbn. apply negb_true_iff, bool_decide_eq_false. intros ->.
    unfold has_template_keys, dict_has in Ht. now rewrite lookup_empty in Ht. }
  assert (Ht : template = if by_keys then jsn else if by_submit then parsed_json else None).
  { subst template by_keys by_submit. unfold detect_template.
    destruct jsn as [j|].
    - destruct (truthy (JObj j) && has_template_keys j); [reflexivity|].
      destruct parsed_json as [d|]; [|reflexivity].
      now destruct (truthy (JObj d) && contains "submit" (lower (json_dumps d))).
    - destruct parsed_json as [d|]; [|reflexivity].
      now destruct (truthy (JObj d) && contains "submit" (lower (json_dumps d))). }
  split; [exact Ht|]. split.
  - intros t -> Hk. rewrite Ht. subst by_keys. now rewrite (Hkeys t Hk), Hk.
  - intros t Hsome possible Hp.
    assert (Htruthy : truthy (JObj t) = true).
    { assert (Hps : (if by_submit then parsed_json else None) = Some t ->
                    truthy (JObj t) = true).
      { subst by_submit. destruct parsed_json as [d|]; [|discriminate].
        destruct (truthy (JObj d) && contains "submit" (lower (json_dumps d))) eqn:E;
          [|discriminate].
        intros [= <-]. now apply andb_true_iff in E. }
      rewrite Ht in Hsome. subst by_keys.
      destruct jsn as [j|]; [|now apply Hps].
      destruct (truthy (JObj j) && has_template_keys j) eqn:E; [|now apply Hps].
      injection Hsome as <-. now apply andb_true_iff in E. }
    unfold final_submit_url. rewrite Hsome, Htruthy. fold possible. now rewrite Hp.
Qed.

End ChainFacts.

(** ** Exceptions and the ways out of the chain *)




Lemma held_from_app (r : resource) (h : bool) (l1 l2 : list event) :
  held_from r h (l1 ++ l2) = held_from r (held_from r h l1) l2.
Proof.
  revert h. induction l1 as [|e l1 IH]; intros h; [reflexivity|].
  destruct e; cbn; apply IH.
Qed.

(** ** Tables *)

Lemma eq_label_spec (a b : label) : eq_label a b = true <-> a = b.
Proof.
  destruct a as [s|x], b as [t|y]; cbn; split; try discriminate.
  - intros H. apply String.eqb_eq in H. now subst.
  - intros [= ->]. apply String.eqb_refl.
  - intros H. apply Z.eqb_eq in H. now subst.
  - intros [= ->]. apply Z.eqb_refl.
Qed.

(** [c in df.columns] *)
Lemma df_getitem_nil (df : dataframe) (c : label) :
  df_getitem df c = [] <-> c ∉ (fst <$> df).
Proof.
  unfold df_getitem. induction df as [|[c0 cells] rest IH]; cbn.
  - split; [intros _ H; inversion H | reflexivity].
  - destruct (eq_label c c0) eqn:E; cbn.
    + apply eq_label_spec in E. subst c0. split; [discriminate|].
      intros H. destruct H. apply list_elem_of_here.
    + rewrite IH. rewrite not_elem_of_cons. split; [|now intros [_ H]].
      intros H. split; [|exact H]. intros ->.
      now rewrite (proj2 (eq_label_spec c0 c0) eq_refl) in E.
Qed.

Lemma df_getitem_in (df : dataframe) (c : label) :
  df_getitem df c <> [] -> c ∈ (fst <$> df).
Proof.
  unfold df_getitem. induction df as [|[c0 cells] rest IH]; cbn; [congruence|].
  destruct (eq_label c c0) eqn:E.
  - apply eq_label_spec in E. subst c0. intros _. apply list_elem_of_here.
  - intros H. apply list_elem_of_further, IH, H.
Qed.

(** Labels that are distinct select at most one column. *)
Lemma df_getitem_distinct (df : dataframe) (c : label) :
  NoDup (fst <$> df) -> (length (df_getitem df c) <= 1)%nat.
Proof.
  induction df as [|[c0 cells] rest IH]; cbn; [lia|].
  intros H. apply NoDup_cons in H. destruct H as [Hnot Hrest].
  unfold df_getitem in *. cbn.
  destruct (eq_label c c0) eqn:E; cbn; [|now apply IH].
  apply eq_label_spec in E. subst c0.
  apply df_getitem_nil in Hnot. unfold df_getitem in Hnot. rewrite Hnot. cbn. lia.
Qed.

Lemma sum_selection_series {lib : PyLib} (sel : list (list cell)) :
  sel <> [] -> (length sel <= 1)%nat ->
  exists cells, sel = [cells] /\ sum_selection sel = Some (JNum (sum_column_cells cells)).
Proof.
  destruct sel as [|cells [|c2 rest]]; cbn; intros Hne Hlen; [congruence | eauto | lia].
Qed.

Section ExitFacts.
Context {lib : PyLib} {env : Env} {cfg : Config}.

Lemma lower_index_text (cols : list label) :
  Forall is_text_label cols -> forall acc, exists m, lower_index cols acc = Some m.
Proof.
  induction 1 as [|c cols Hc _ IH]; intros acc; cbn; [eauto|].
  destruct c; [apply IH | destruct Hc].
Qed.






(** A submission raises nothing: it continues, or returns one of three
    results, each after closing the four resources. *)
Lemma submit_result st col submit_url payload log :
  exists f log',
    submit st col submit_url payload log = (inr f, log')
    /\ submit_outcome f
    /\ forall r, f = Done r -> exists l, log' = (l ++ closes)%list.
Proof.
  unfold submit. destruct (negb (truthy submit_url)).
  - unfold bind. rewrite close_all_log. eexists _, _.
    split; [reflexivity|]. split; [right; left; eauto | eauto].
  - unfold try_except, bind, post.
    destruct (env_post log submit_url payload) as [e|r].
    + rewrite close_all_log. eexists _, _.
      split; [reflexivity|]. split; [right; right; eauto | eauto].
    + destruct (truthy (next_url (response_json r))).
      * eexists _, _. split; [reflexivity|]. split; [exact I | discriminate].
      * rewrite close_all_log. eexists _, _.
        split; [reflexivity|]. split; [left; eauto | eauto].
Qed.

Lemma render_log url log : snd (render url log) = (log ++ [EvGoto url])%list.
Proof. unfold render. now destruct url. Qed.


(** A pass that returns has closed the four resources. *)
Lemma iteration_done_closed secret st log r log' :
  iteration secret st log = (inr (Done r), log') -> exists l, log' = (l ++ closes)%list.
Proof.
  unfold iteration. unfold bind at 1.
  destruct (render (current_url st) log) as [[e|[page_text page_plain]] log1];
    [discriminate|].
  unfold bind at 1.
  destruct (prepare _ _ _ _ _ log1) as [[e|[[col payload] submit_url]] log2];
    [discriminate|].
  destruct (submit_result st col submit_url payload log2) as (f & log3 & E & _ & Hc).
  rewrite E. intros [= -> <-]. now apply (Hc r).
Qed.

Lemma chain_loop_done_closed fuel deadline secret st log r log' :
  chain_loop fuel deadline secret st log = (inr (Some r), log') ->
  exists l, log' = (l ++ closes)%list.
Proof.
  revert st log. induction fuel as [|fuel IH]; intros st log; cbn [chain_loop];
    [discriminate|].
  unfold bind at 1.
  destruct (loop_test deadline st log) as [[e|[|]] log1]; [discriminate| |].
  - unfold bind at 1.
    destruct (iteration secret st log1) as [[e|[st'|result]] log2] eqn:I;
      [discriminate | apply IH |].
    intros [= -> <-]. eapply iteration_done_closed; eauto.
  - unfold bind. rewrite close_all_log. intros [= _ <-]. eauto.
Qed.

Lemma solve_quiz_chain_unfold fuel start secret log :
  solve_quiz_chain fuel start secret log =
  let '(r, log') :=
    chain_loop fuel (env_time log + TIMEOUT_SECONDS)%Z secret
      {| current_url := JStr start; last_response := JNull; colname := None |}
      (log ++ [EvTime; EvAcquire Playwright; EvAcquire Browser;
               EvAcquire BrowserContext; EvAcquire Page; EvAcquire HttpClient])%list in
  (r, (log' ++ [EvClose Playwright])%list).
Proof.
  unfold solve_quiz_chain, async_with_playwright, now, acquire, emit, bind. cbn.
  now rewrite <- !app_assoc.
Qed.

(** Every [return] of the function leaves no resource held. *)
Lemma returned_chain_releases_everything fuel start secret log r log' :
  solve_quiz_chain fuel start secret log = (inr (Some r), log') ->
  forall res, held res log' = false.
Proof.
  rewrite solve_quiz_chain_unfold.
  destruct (chain_loop _ _ _ _ _) as [out log1] eqn:E.
  intros [= -> <-] res.
  destruct (chain_loop_done_closed _ _ _ _ _ _ _ E) as (l & ->).
  unfold held. rewrite !held_from_app.
  destruct res; destruct (held_from _ false l); reflexivity.
Qed.

End ExitFacts.

(** ** The cascade of the source against the cascade of the specification *)

Section CascadeOrder.
Context {lib : PyLib} {env : Env} {cfg : Config}.


Lemma agrees_with_answer a v tag :
  is_none v = false -> agrees (with_answer a v tag) (present v tag).
Proof. intros H. unfold present. rewrite H. cbn. auto. Qed.

Lemma agrees_with_file_error a e : answer a = JNull -> agrees (with_file_error a e) None.
Proof. intros H. exact H. Qed.

(** What the value of [s] leaves in the cascade is what [present]
    produces. *)
Lemma agrees_present a v tag :
  answer a = JNull ->
  agrees (if negb (is_none v) then with_answer a v tag else a) (present v tag).
Proof.
  intros Ha. destruct (is_none v) eqn:N; cbn.
  - unfold present. now rewrite N.
  - now apply agrees_with_answer.
Qed.














End CascadeOrder.

(** ** The start of a run *)

Section LaunchFacts.
Context {lib : PyLib} {env : Env} {cfg : Config} {launcher : Launcher}.

Lemma launch_cases (r : resource) (l : list event) :
  (exists e, env_launch l r = inl e /\ launch r l = (inl e, l))
  \/ launch r l = (inr tt, (l ++ [EvAcquire r])%list).
Proof. unfold launch. destruct (env_launch l r) as [e|[]]; eauto. Qed.

(** Lines 30 to 33 start the four resources, or stop at the first call
    that raises, before the HTTP client exists. *)
Lemma startup_cases (l0 : list event) :
  (exists e l r pre,
     env_launch l r = inl e
     /\ l = (l0 ++ pre)%list
     /\ Forall (fun ev => ev = EvAcquire Browser \/ ev = EvAcquire BrowserContext
                          \/ ev = EvAcquire Page) pre
     /\ startup l0 = (inl e, l))
  \/ startup l0
     = (inr tt, (l0 ++ [EvAcquire Browser; EvAcquire BrowserContext; EvAcquire Page;
                        EvAcquire HttpClient])%list).
Proof.
  unfold startup.
  destruct (launch_cases Browser l0) as [(e & E & L)|L1].
  { left. exists e, l0, Browser, []. rewrite app_nil_r.
    split; [exact E|]. split; [reflexivity|]. split; [constructor|].
    now rewrite (bind_err _ _ _ _ _ L). }
  rewrite (bind_ok _ _ _ _ _ L1).
  destruct (launch_cases BrowserContext (l0 ++ [EvAcquire Browser])%list)
    as [(e & E & L)|L2].
  { left. exists e, (l0 ++ [EvAcquire Browser])%list, BrowserContext, [EvAcquire Browser].
    split; [exact E|]. split; [reflexivity|]. split; [repeat constructor|].
    now rewrite (bind_err _ _ _ _ _ L). }
  rewrite (bind_ok _ _ _ _ _ L2).
  destruct (launch_cases Page ((l0 ++ [EvAcquire Browser]) ++ [EvAcquire BrowserContext])%list)
    as [(e & E & L)|L3].
  { left. exists e, ((l0 ++ [EvAcquire Browser]) ++ [EvAcquire BrowserContext])%list, Page,
             [EvAcquire Browser; EvAcquire BrowserContext].
    split; [exact E|]. split; [now rewrite <- app_assoc|].
    split; [constructor; [now left|]; constructor; [right; now left | constructor]|].
    now rewrite (bind_err _ _ _ _ _ L). }
  rewrite (bind_ok _ _ _ _ _ L3).
  destruct (launch_cases HttpClient
              (((l0 ++ [EvAcquire Browser]) ++ [EvAcquire BrowserContext])
                 ++ [EvAcquire Page])%list) as [(e & E & L)|L4].
  { left. exists e, (((l0 ++ [EvAcquire Browser]) ++ [EvAcquire BrowserContext])
                       ++ [EvAcquire Page])%list, HttpClient,
             [EvAcquire Browser; EvAcquire BrowserContext; EvAcquire Page].
    split; [exact E|]. split; [now rewrite <- !app_assoc|].
    split; [constructor; [now left|]; constructor; [right; now left|];
            constructor; [right; now right | constructor]|].
    exact L. }
  right. rewrite L4. now rewrite <- !app_assoc.
Qed.

(** A run either fails to start, the exception of the failing call
    leaving the function (through the context manager, once Playwright is
    entered, and before the HTTP client exists), or it starts and goes on
    with the loop. *)
Lemma solve_quiz_chain_launching_unfold fuel (start : json) secret log :
  (exists e l r,
     env_launch l r = inl e
     /\ fst ((launch Playwright ;;; startup) (log ++ [EvTime])%list) = inl e
     /\ ((l = (log ++ [EvTime])%list
          /\ solve_quiz_chain_launching fuel start secret log = (inl e, l))
         \/ (exists pre,
               l = (log ++ EvTime :: EvAcquire Playwright :: pre)%list
               /\ Forall (fun ev => ev = EvAcquire Browser \/ ev = EvAcquire BrowserContext
                                    \/ ev = EvAcquire Page) pre
               /\ solve_quiz_chain_launching fuel start secret log
                  = (inl e, (l ++ [EvClose Playwright])%list))))
  \/ (fst ((launch Playwright ;;; startup) (log ++ [EvTime])%list) = inr tt
      /\ solve_quiz_chain_launching fuel start secret log
         = let '(r, log') :=
             chain_loop fuel (env_time log + TIMEOUT_SECONDS)%Z secret
               {| current_url := start; last_response := JNull; colname := None |}
               (log ++ opening)%list in
           (r, (log' ++ [EvClose Playwright])%list)).
Proof.
  unfold solve_quiz_chain_launching.
  rewrite (bind_ok _ _ log (env_time log) (log ++ [EvTime])%list) by reflexivity.
  cbv beta zeta. unfold async_with_launched_playwright.
  destruct (launch_cases Playwright (log ++ [EvTime])%list) as [(e & E0 & L0)|L0];
    rewrite L0.
  { left. exists e, (log ++ [EvTime])%list, Playwright.
    split; [exact E0|]. split; [now rewrite (bind_err _ _ _ _ _ L0)|]. now left. }
  rewrite (bind_ok _ _ _ _ _ L0).
  destruct (startup_cases ((log ++ [EvTime]) ++ [EvAcquire Playwright])%list)
    as [(e & l & r & pre & E & -> & Hpre & S)|S].
  - left. exists e, (((log ++ [EvTime]) ++ [EvAcquire Playwright]) ++ pre)%list, r.
    split; [exact E|]. split; [now rewrite S|].
    right. exists pre. split; [now rewrite <- !app_assoc|]. split; [exact Hpre|].
    now rewrite (bind_err _ _ _ _ _ S).
  - right. split; [now rewrite S|].
    rewrite (bind_ok _ _ _ _ _ S). unfold opening.
    now rewrite <- !app_assoc.
Qed.

End LaunchFacts.

(** ** Termination *)

Section Termination.
Context {lib : PyLib} {env : Env} {cfg : Config}.

(** The clock moves forward with every call into the world. *)
Hypothesis clock_advances : forall log e, (env_time log < env_time (log ++ [e]))%Z.

Lemma clock_monotone log evs :
  (env_time log + Z.of_nat (length evs) <= env_time (log ++ evs))%Z.
Proof.
  induction evs as [|e evs IH] using rev_ind.
  - rewrite app_nil_r. cbn. lia.
  - rewrite app_assoc, length_app. cbn [length].
    pose proof (clock_advances (log ++ evs) e). lia.
Qed.

(** With as many passes allowed as there are time units left, the loop
    ends by itself: it returns or raises. *)
Lemma chain_loop_terminates fuel deadline secret st log :
  (deadline - env_time log <= Z.of_nat fuel)%Z ->
  fst (chain_loop (S fuel) deadline secret st log) <> inr None.
Proof.
  revert st log. induction fuel as [|fuel IH]; intros st log Hf;
    cbn [chain_loop]; unfold loop_test.
  - destruct (truthy (current_url st)).
    + unfold now. unfold bind at 1 2. cbn [fst snd].
      destruct (env_time log <? deadline)%Z eqn:E; [apply Z.ltb_lt in E; cbn in Hf; lia|].
      unfold ret, bind. rewrite close_all_log. discriminate.
    + rewrite bind_ret. unfold bind. rewrite close_all_log. discriminate.
  - destruct (truthy (current_url st)).
    + unfold now. unfold bind at 1 2. cbn [fst snd].
      destruct (env_time log <? deadline)%Z eqn:E.
      * unfold ret.
        destruct (emits_iteration (fun _ => True)) with
          (secret := secret) (st := st) (log := (log ++ [EvTime])%list)
          as (evs & Hs & _); try easy.
        unfold bind at 1.
        destruct (iteration secret st (log ++ [EvTime])%list) as [[e|[st'|r]] log2];
          cbn [snd] in Hs; [discriminate | | discriminate].
        apply IH. subst log2.
        pose proof (clock_monotone (log ++ [EvTime]) evs).
        pose proof (clock_advances log EvTime). lia.
      * unfold ret, bind. rewrite close_all_log. discriminate.
    + rewrite bind_ret. unfold bind. rewrite close_all_log. discriminate.
Qed.

Lemma solve_quiz_chain_terminates fuel start secret log :
  (TIMEOUT_SECONDS <= Z.of_nat fuel)%Z ->
  fst (solve_quiz_chain (S fuel) start secret log) <> inr None.
Proof.
  intros Hf. rewrite solve_quiz_chain_unfold.
  match goal with |- context [chain_loop ?f ?d ?s ?st ?l] =>
    pose proof (chain_loop_terminates fuel d s st l) as Ht;
    destruct (chain_loop f d s st l) as [out log1]
  end.
  cbn [fst] in *. apply Ht.
  match goal with |- context [env_time (log ++ ?evs)] =>
    pose proof (clock_monotone log evs) as Hm; cbn [length] in Hm
  end.
  lia.
Qed.


End Termination.

Section Outcomes.
Context {lib : PyLib} {env : Env} {cfg : Config} {launcher : Launcher}.


Hypothesis Hpages :
  forall log u page_text page_plain,
    env_render log u = inr (page_text, page_plain) ->
    well_formed_page page_text page_plain.




End Outcomes.

(** A run whose startup never fails is a run of [solve_quiz_chain]. *)
Lemma solve_quiz_chain_launching_started
    {lib : PyLib} {env : Env} {cfg : Config} {launcher : Launcher}
    fuel (start : string) secret log :
  (forall l r, env_launch l r = inr tt) ->
  solve_quiz_chain_launching fuel (JStr start) secret log
  = solve_quiz_chain fuel start secret log.
Proof.
  intros Hok. rewrite solve_quiz_chain_unfold.
  destruct (solve_quiz_chain_launching_unfold fuel (JStr start) secret log)
    as [(e & l & r & E & _)|[_ ->]]; [|reflexivity].
  rewrite Hok in E. discriminate.
Qed.

(** ** The first-numeric-column loop *)

(** Coercion of a column never raises, so the loop stops at the first
    column, numeric or not, unless another column carries the same
    label. *)
Lemma first_numeric_column_is_first_column {lib : PyLib}
    (tag : string) (c : label) (cells : list cell) (rest : dataframe) (a : cascade) :
  c ∉ (fst <$> rest) ->
  first_numeric_column tag ((c, cells) :: rest) a
  = with_answer a (JNum (nansum (to_numeric_coerce cells))) (tag ++ label_str c).
Proof.
  intros H. apply df_getitem_nil in H.
  unfold first_numeric_column. cbn [fmap list_fmap fst first_numeric_from].
  unfold df_getitem in *. cbn [List.filter fst].
  rewrite (proj2 (eq_label_spec c c) eq_refl). cbn [fmap list_fmap snd].
  now rewrite H.
Qed.

(** * Concrete runs *)

Module Runs.
Import Reference Scenarios Cases.


Lemma no_table_no_template page_text page_plain :
  snd (fst (@extract_signals lib page_text page_plain)) = None ->
  @well_formed_page lib page_text page_plain.
Proof.
  intros H. split.
  - intros df. cbn. discriminate.
  - intros t v Ht. rewrite H in Ht. discriminate.
Qed.

(** The inline sum of the quiz page, end to end: the answer 15 with the
    tag of step 3 is posted, and the chain ends in success. *)
Example inline_sum_run :
  @solve_quiz_chain lib missing_file_world config 3 "https://x/q1" "s3cret" []
  = (inr (Some (success_result (JObj {[ "correct" := JBool true ]})
                  (<[ "_meta" := JObj {[ "method" := JStr "sum-inline-numbers";
                                        "raw_page_sample" := JNull ]} ]>
                   {[ "email" := JStr "you@example.com";
                      "secret" := JStr "s3cret";
                      "url" := JStr "https://x/q1";
                      "answer" := JNum 15 ]}))),
     [EvTime; EvAcquire Playwright; EvAcquire Browser; EvAcquire BrowserContext;
      EvAcquire Page; EvAcquire HttpClient; EvTime; EvGoto (JStr "https://x/q1");
      EvGet "https://x/data.csv";
      EvPost (JStr "https://x/submit")
        (<[ "_meta" := JObj {[ "method" := JStr "sum-inline-numbers";
                              "raw_page_sample" := JNull ]} ]>
         {[ "email" := JStr "you@example.com";
            "secret" := JStr "s3cret";
            "url" := JStr "https://x/q1";
            "answer" := JNum 15 ]});
      EvClose HttpClient; EvClose Page; EvClose BrowserContext; EvClose Browser;
      EvClose Playwright]).
Proof. vm_compute. reflexivity. Qed.

(** A base64 block that decodes to an object with an answer: step 5
    takes it, with the tag [decoded-json]. *)
Example decoded_json_run :
  fst (fst (@extract_signals lib blob_plain blob_plain))
  = Some ("{" ++ quoted "answer" ++ ": 42}"
          ++ "                                                             ")
  /\ @resolve_answer lib unreachable_world "https://x/q1" blob_plain blob_plain None
       (fst (fst (@extract_signals lib blob_plain blob_plain))) None []
     = (inr (None, {| answer := JNum 42; meta_method := Some "decoded-json";
                      meta_file_error := None |}), []).
Proof. vm_compute. split; reflexivity. Qed.

(** A page without table, file, sum phrase, template, blob or number: the
    answer is absent and the payload carries the note. *)
Example absent_answer_run :
  @prepare lib unreachable_world config "s3cret" start "https://x/q1" empty_plain empty_plain []
  = (inr (None,
          {[ "email" := JStr "you@example.com";
             "secret" := JStr "s3cret";
             "url" := JStr "https://x/q1";
             "answer" := JNull;
             "note" := JStr "unable to parse task automatically" ]},
          JStr "https://x/submit"), []).
Proof. vm_compute. reflexivity. Qed.

(** A chain of two pages: the response to the first answer names the
    second page, the response to the second names none, and the chain ends
    in success. *)
Example two_page_run :
  let out := @solve_quiz_chain lib chain_world config 5 "https://x/q1" "s3cret" [] in
  (exists payload,
     fst out = inr (Some (success_result (JObj {[ "correct" := JBool true ]}) payload)))
  /\ visited (snd out) = [JStr "https://x/q1"; JStr "https://x/page2"]
  /\ posted_answers (snd out)
     = [(JStr "https://x/submit", JNum 15); (JStr "https://x/submit-b", JNum 3)]
  /\ forall r, held r (snd out) = false.
Proof.
  cbv zeta. split; [vm_compute; eexists; reflexivity|].
  split; [vm_compute; reflexivity|]. split; [vm_compute; reflexivity|].
  intros r. destruct r; vm_compute; reflexivity.
Qed.

(** With no time left at the first loop test, no page is visited. *)
Example timeout_run :
  @solve_quiz_chain lib chain_world no_time 5 "https://x/q1" "s3cret" []
  = (inr (Some (timeout_result JNull)),
     [EvTime; EvAcquire Playwright; EvAcquire Browser; EvAcquire BrowserContext;
      EvAcquire Page; EvAcquire HttpClient; EvTime;
      EvClose HttpClient; EvClose Page; EvClose BrowserContext; EvClose Browser;
      EvClose Playwright]).
Proof. vm_compute. reflexivity. Qed.

(** The prompt of the column-sum step binds [colname] to the last
    character before [ column]: the star of the pattern is greedy. *)
Example sum_column_pattern_group :
  search sum_column_re "What is the sum of the 'value' column?" = Some "e".
Proof. vm_compute. reflexivity. Qed.

(** C2, as the claim words it, fails: the body carries a [url] field, and
    the chain does not continue with it but ends in success. *)
Lemma submit_ends_on_empty_url :
  let body : dict := {[ "url" := JStr "" ]} in
  body !! "url" = Some (JStr "")
  /\ @submit empty_url_world start None (JStr "https://x/submit") ∅ []
     = (inr (Done (success_result (JObj body) ∅)),
        [EvPost (JStr "https://x/submit") ∅;
         EvClose HttpClient; EvClose Page; EvClose BrowserContext; EvClose Browser]).
Proof. vm_compute. split; reflexivity. Qed.

(** C2 on a response that names the next page under [next]: the submit
    URL is true, the post returns, and the pass ends with [current_url]
    replaced. *)
Lemma continuation_witness :
  truthy (JStr "https://x/submit") = true
  /\ @env_post next_world [] (JStr "https://x/submit") ∅
     = inr (json_response (JObj {[ "next" := JStr "https://x/page2" ]}))
  /\ @submit next_world start None (JStr "https://x/submit") ∅ []
     = (inr (Next {| current_url := JStr "https://x/page2";
                     last_response := JObj {[ "next" := JStr "https://x/page2" ]};
                     colname := None |}),
        [EvPost (JStr "https://x/submit") ∅]).
Proof.
  split; [reflexivity|]. split; [reflexivity|].
  exact (proj1 (proj1 (proj2
    (@continuation_reads_url_then_next lib next_world config start None
       (JStr "https://x/submit") ∅ []
       (json_response (JObj {[ "next" := JStr "https://x/page2" ]}))
       eq_refl eq_refl)) eq_refl)).
Defined.

(** C5, as the claim words it, fails: an object without [email], [secret]
    and [url] is taken as the payload template, because its serialisation
    contains [submit]. *)
Lemma template_without_identity_keys :
  let t : dict := {[ "submit" := JStr "https://x/submit" ]} in
  @extract_signals lib submit_only_plain submit_only_plain
  = (None, Some t, JStr "https://x/submit")
  /\ has_template_keys t = false.
Proof. vm_compute. split; reflexivity. Qed.

(** C6 at a file whose first column is text: the loop takes the column
    [name], every cell of which coerces to a missing value, and the answer
    is 0 with the tag of that column, not the sum 6 of the numeric column
    [value]. *)
Theorem linked_csv_sums_first_column_even_if_text :
  @pd_read_csv lib csv_file
  = Some [(LStr "name", [CStr "a"; CStr "b"; CStr "c"]);
          (LStr "value", [CNum 1; CNum 2; CNum 3])]
  /\ @resolve_answer lib csv_world "https://x/q1" csv_markup csv_plain None None None []
     = (inr (None, {| answer := JNum 0;
                      meta_method := Some "csv-first-numeric:name";
                      meta_file_error := None |}),
        [EvGet "https://x/data.csv"])
  /\ nansum (@to_numeric_coerce lib [CNum 1; CNum 2; CNum 3]) = 6%Q.
Proof. vm_compute. repeat split; reflexivity. Qed.






(** C8 at a start URL that cannot be reached: the exception of
    [page.goto] leaves the function through the context manager, none of
    the four close calls is made, and the HTTP client is still held when
    the function is left. *)
Theorem navigation_failure_leaves_http_client_open :
  let out := @solve_quiz_chain lib unreachable_world config 3 "https://x/q1" "s3cret" [] in
  fst out = inl "net::ERR_NAME_NOT_RESOLVED"
  /\ held HttpClient (snd out) = true
  /\ Forall (fun e => forall r, e = EvClose r -> r = Playwright) (snd out).
Proof.
  vm_compute. repeat split.
  repeat (constructor; [intros r; try discriminate; now intros [= <-]|]).
  constructor.
Qed.

End Runs.

(** * Further properties *)

(** ** [extract_numbers] and [decode_base64_block] *)

Lemma span_head (p : ascii -> bool) (s : string) c a b :
  span p s = (String c a, b) -> exists r, s = String c r /\ p c = true.
Proof.
  destruct s as [|c0 r]; cbn; [discriminate|].
  destruct (p c0) eqn:E; [|discriminate].
  destruct (span p r) as [a0 b0]. intros [= <- _ _]. eauto.
Qed.

Lemma span_length (p : ascii -> bool) (s : string) :
  (String.length (fst (span p s)) <= String.length s)%nat.
Proof.
  induction s as [|c r IH]; cbn; [lia|].
  destruct (p c); cbn; [|lia].
  destruct (span p r) as [a b]. cbn in *. lia.
Qed.

Lemma digit_not_minus (c : ascii) : is_digit c = true -> (code c =? 45)%nat = false.
Proof.
  unfold is_digit, in_range. intros H. apply andb_true_iff in H. destruct H as [H _].
  apply Nat.leb_le in H. apply Nat.eqb_neq. lia.
Qed.

(** A text that opens with a digit has a number at its head. *)
Lemma number_re_at_digit (c : ascii) (r : string) :
  is_digit c = true -> number_re (String c r) <> None.
Proof.
  intros H. unfold number_re. rewrite (digit_not_minus c H).
  cbn [span]. rewrite H. destruct (span is_digit r) as [a b].
  destruct b as [|d b']; [discriminate|].
  destruct (code d =? 46)%nat; [|discriminate].
  destruct (span is_digit b') as [fs s3]. now destruct fs.
Qed.

(** A number at the head of a text takes a digit of the text. *)
Lemma number_re_has_digit (s : string) tok rest :
  number_re s = Some (tok, rest) -> has_char is_digit s = true.
Proof.
  unfold number_re.
  destruct s as [|c r]; [cbn; discriminate|].
  destruct (code c =? 45)%nat.
  - destruct (span is_digit r) as [ds s2] eqn:E.
    destruct ds as [|d ds']; [discriminate|]. intros _.
    destruct (span_head _ _ _ _ _ E) as (r' & -> & Hd).
    cbn. rewrite Hd. now rewrite orb_true_r.
  - destruct (span is_digit (String c r)) as [ds s2] eqn:E.
    destruct ds as [|d ds']; [discriminate|]. intros _.
    destruct (span_head _ _ _ _ _ E) as (r' & [= <- <-] & Hd).
    cbn. now rewrite Hd.
Qed.

Lemma findall_number_re_nil (fuel : nat) (s : string) :
  (String.length s <= fuel)%nat ->
  (findall number_re fuel s = [] <-> has_char is_digit s = false).
Proof.
  revert s. induction fuel as [|fuel IH]; intros s Hlen.
  - destruct s; cbn in *; [easy | lia].
  - destruct s as [|c r]; [easy|]. cbn [findall has_char].
    destruct (number_re (String c r)) as [[tok rest]|] eqn:E.
    + apply number_re_has_digit in E. cbn [has_char] in E. rewrite E. easy.
    + destruct (is_digit c) eqn:D; [now apply number_re_at_digit in E|].
      cbn [orb]. apply IH. cbn in Hlen. lia.
Qed.

Lemma no_number_no_digit (text : string) :
  extract_numbers text = [] -> has_char is_digit text = false.
Proof.
  unfold extract_numbers. intros H.
  apply (findall_number_re_nil (String.length text) text (Nat.le_refl _)).
  now destruct (findall number_re (String.length text) text).
Qed.

(** X1.  [extract_numbers] finds no number exactly in the texts without a
    digit: a sign or a dot alone is no number, and every digit belongs to
    one. *)
Theorem extract_numbers_nil_iff_no_digit (text : string) :
  extract_numbers text = [] <-> has_char is_digit text = false.
Proof.
  unfold extract_numbers.
  rewrite <- (findall_number_re_nil (String.length text) text (Nat.le_refl _)).
  now destruct (findall number_re (String.length text) text).
Qed.

Lemma findall_b64_short (fuel : nat) (s : string) :
  (String.length s < 100)%nat -> findall b64_block_re fuel s = [].
Proof.
  revert s. induction fuel as [|fuel IH]; intros s Hlen; [reflexivity|].
  destruct s as [|c r]; [reflexivity|]. cbn [findall].
  unfold b64_block_re at 1.
  pose proof (span_length is_b64_char (String c r)) as Hs.
  destruct (span is_b64_char (String c r)) as [run rest]. cbn [fst] in Hs.
  destruct (100 <=? String.length run)%nat eqn:E.
  - apply Nat.leb_le in E. lia.
  - apply IH. cbn in Hlen. lia.
Qed.

(** X2.  [decode_base64_block] yields nothing on a text shorter than 100
    characters, whatever the text is: the decoder is not even called. *)
Theorem decode_base64_block_short {lib : PyLib} (text : string) :
  (String.length text < 100)%nat -> decode_base64_block text = None.
Proof.
  intros H. unfold decode_base64_block, search.
  now rewrite (findall_b64_short _ _ H).
Qed.

(** ** [sum_dataframe_column] *)

Lemma lower_index_keeps (cols : list label) (acc m : gmap string string) (k : string) :
  lower_index cols acc = Some m -> is_Some (acc !! k) -> is_Some (m !! k).
Proof.
  revert acc. induction cols as [|[s|z] rest IH]; intros acc; cbn.
  - now intros [= <-].
  - intros E H. apply (IH _ E).
    destruct (decide (lower s = k)) as [<-|Hne].
    + rewrite lookup_insert_eq. eauto.
    + now rewrite lookup_insert_ne.
  - discriminate.
Qed.

(** Every label has its lower-case key in the index. *)
Lemma lower_index_complete (cols : list label) (acc m : gmap string string) (c : string) :
  lower_index cols acc = Some m -> LStr c ∈ cols -> is_Some (m !! lower c).
Proof.
  revert acc. induction cols as [|[s|z] rest IH]; intros acc; cbn.
  - intros _ H. inversion H.
  - intros E H. apply elem_of_cons in H. destruct H as [[= <-]|H].
    + apply (lower_index_keeps _ _ _ _ E). rewrite lookup_insert_eq. eauto.
    + now apply (IH _ E).
  - discriminate.
Qed.

(** Every entry of the index is a label under its lower-case key. *)
Lemma lower_index_sound (cols : list label) (acc m : gmap string string) (k c : string) :
  lower_index cols acc = Some m -> m !! k = Some c ->
  (LStr c ∈ cols /\ lower c = k) \/ acc !! k = Some c.
Proof.
  revert acc. induction cols as [|[s|z] rest IH]; intros acc; cbn.
  - intros [= <-] H. now right.
  - intros E H. destruct (IH _ E H) as [[Hin Hk]|Hacc].
    + left. split; [now apply list_elem_of_further | exact Hk].
    + destruct (decide (lower s = k)) as [<-|Hne].
      * rewrite lookup_insert_eq in Hacc. injection Hacc as <-.
        left. split; [apply list_elem_of_here | reflexivity].
      * rewrite lookup_insert_ne in Hacc by exact Hne. now right.
  - discriminate.
Qed.

Lemma lower_index_integer (cols : list label) (acc : gmap string string) (z : Z) :
  LInt z ∈ cols -> lower_index cols acc = None.
Proof.
  revert acc. induction cols as [|[s|z'] rest IH]; intros acc H; cbn.
  - inversion H.
  - apply IH. apply elem_of_cons in H. now destruct H as [[=]|H].
  - reflexivity.
Qed.

Lemma sum_selection_not_null {lib : PyLib} (sel : list (list cell)) :
  sum_selection sel <> Some JNull.
Proof. destruct sel as [|cells [|c2 rest]]; cbn; discriminate. Qed.

(** X3.  [sum_dataframe_column] on a table whose column labels are texts.
    It returns the value None exactly when no label equals the requested
    name up to the case of its letters.  When the labels are distinct it
    never raises, and returns a number exactly when some label equals the
    name up to case.  When several columns carry the requested name it
    raises: the selection is a DataFrame, not a Series. *)
Theorem sum_dataframe_column_case_insensitive {lib : PyLib}
    (df : dataframe) (name : string) :
  Forall is_text_label (fst <$> df) ->
  (sum_dataframe_column df name = Some JNull
     <-> forall c, LStr c ∈ (fst <$> df) -> lower c <> lower name)
  /\ (NoDup (fst <$> df) ->
      sum_dataframe_column df name <> None
      /\ ((exists q, sum_dataframe_column df name = Some (JNum q))
            <-> exists c, LStr c ∈ (fst <$> df) /\ lower c = lower name))
  /\ ((1 < length (df_getitem df (LStr name)))%nat ->
      sum_dataframe_column df name = None).
Proof.
  intros Htext. unfold sum_dataframe_column.
  destruct (df_getitem df (LStr name)) as [|c1 sel1] eqn:D.
  - destruct (lower_index_text _ Htext ∅) as (low & E). rewrite E.
    destruct (low !! lower name) as [c|] eqn:L.
    + destruct (lower_index_sound _ _ _ _ _ E L) as [[Hin Hk]|Hacc];
        [|now rewrite lookup_empty in Hacc].
      assert (Hsel : df_getitem df (LStr c) <> [])
        by (intros H0; now apply df_getitem_nil in H0).
      destruct (df_getitem df (LStr c)) as [|c2 sel2] eqn:D2; [congruence|].
      split; [|split].
      * split; [intros H; now apply sum_selection_not_null in H|].
        intros H. now destruct (H c Hin).
      * intros Hd. pose proof (df_getitem_distinct df (LStr c) Hd) as Hlen.
        rewrite D2 in Hlen. destruct sel2 as [|c3 sel3]; [|cbn in Hlen; lia].
        cbn. split; [discriminate|]. split; [intros _; now exists c | eauto].
      * cbn. lia.
    + assert (Hno : forall c, LStr c ∈ (fst <$> df) -> lower c <> lower name).
      { intros c Hin Hk. destruct (lower_index_complete _ _ _ c E Hin) as [x Hx].
        rewrite Hk, L in Hx. discriminate. }
      split; [|split].
      * split; [intros _; exact Hno | reflexivity].
      * intros _. split; [discriminate|]. split; [intros [q [=]]|].
        intros (c & Hin & Hk). now destruct (Hno c Hin).
      * cbn. lia.
  - assert (Hin : LStr name ∈ (fst <$> df))
      by (apply df_getitem_in; rewrite D; discriminate).
    split; [|split].
    + split; [intros H; now apply sum_selection_not_null in H|].
      intros H. now destruct (H name Hin).
    + intros Hd. pose proof (df_getitem_distinct df (LStr name) Hd) as Hlen.
      rewrite D in Hlen. destruct sel1 as [|c2 sel2]; [|cbn in Hlen; lia].
      cbn. split; [discriminate|]. split; [intros _; now exists name | eauto].
    + intros Hlen. destruct sel1 as [|c2 sel2]; [cbn in Hlen; lia | reflexivity].
Qed.

(** X4.  When the requested name is no label of the table and some label
    is an integer (a table read without a header row), building the
    lower-case index raises: [sum_dataframe_column] raises instead of
    returning None. *)
Theorem sum_dataframe_column_integer_label {lib : PyLib}
    (df : dataframe) (name : string) (z : Z) :
  LStr name ∉ (fst <$> df) -> LInt z ∈ (fst <$> df) ->
  sum_dataframe_column df name = None.
Proof.
  intros Hname Hint. unfold sum_dataframe_column.
  rewrite (proj2 (df_getitem_nil df (LStr name)) Hname).
  now rewrite (lower_index_integer _ _ z Hint).
Qed.

(** ** [try_parse_json_from_text] *)

Lemma substring_head (s : string) (i n : nat) (c : ascii) :
  String.get i s = Some c ->
  substring i (S n) s = String c (substring (S i) n s).
Proof.
  revert i. induction s as [|a r IH]; intros [|i]; cbn; try discriminate.
  - intros [= ->]. now destruct r.
  - intros H. rewrite (IH i H). reflexivity.
Qed.

Lemma try_slices_brace (lib1 lib2 : PyLib) (text : string) (start : nat) :
  String.get start text = Some "{"%char ->
  (forall r, @json_loads lib1 (String "{" r) = @json_loads lib2 (String "{" r)) ->
  forall n, @try_slices lib1 text start n = @try_slices lib2 text start n.
Proof.
  intros Hg Hagree. induction n as [|n IH]; [reflexivity|].
  cbn [try_slices]. unfold slice.
  replace (start + S n - start)%nat with (S n) by lia.
  rewrite (substring_head _ _ _ _ Hg), Hagree, IH. reflexivity.
Qed.

(** X5.  [try_parse_json_from_text] hands only texts that open with a
    brace to [json.loads]: two decoders that agree on such texts give the
    same result on every text. *)
Theorem try_parse_json_reads_brace_texts_only (lib1 lib2 : PyLib) (text : string) :
  (forall r, @json_loads lib1 (String "{" r) = @json_loads lib2 (String "{" r)) ->
  @try_parse_json_from_text lib1 text = @try_parse_json_from_text lib2 text.
Proof.
  intros Hagree. unfold try_parse_json_from_text.
  destruct (find_char "{" text) as [start|] eqn:F; [|reflexivity].
  apply try_slices_brace; [|exact Hagree].
  now destruct (find_char_spec _ _ _ F) as (Hg & _).
Qed.

(** ** What the cascade returns *)

Section AnswerFacts.
Context {lib : PyLib} {env : Env} {cfg : Config}.

Local Abbreviation quiet := (fun _ : event => True).

Lemma tagged_with_answer a v tag : tagged (with_answer a v tag).
Proof. intros _. cbn. eauto. Qed.

Lemma tagged_with_file_error a e : tagged a -> tagged (with_file_error a e).
Proof. intros H. exact H. Qed.

Lemma tagged_first_numeric_column tag df a :
  tagged a -> tagged (first_numeric_column tag df a).
Proof.
  intros H. unfold first_numeric_column.
  induction (fst <$> df) as [|c rest IH]; cbn; [exact H|].
  destruct (try_coerce_sum (df_getitem df c)); [apply tagged_with_answer | exact IH].
Qed.

Lemma tagged_pdf_branch content col a : tagged a -> tagged (pdf_branch content col a).
Proof.
  intros H. unfold pdf_branch.
  destruct (extract_numbers _); [exact H | apply tagged_with_answer].
Qed.

Lemma emits_column_sum_value page_plain page_text col a :
  tagged a ->
  emits quiet (fun r => fst r = colname_after page_plain col /\ tagged (snd r))
    (column_sum_step page_plain page_text col a).
Proof.
  intros H. unfold column_sum_step, colname_after.
  destruct (search sum_column_re page_plain) as [g1|]; [|now apply emits_ret].
  destruct (parse_table_html_to_df page_text) as [df|]; [|now apply emits_ret].
  eapply emits_bind; [apply emits_lift_opt|]. intros v _.
  destruct (negb (is_none v)); apply emits_ret; cbn [fst snd];
    split; auto using tagged_with_answer.
Qed.

Lemma emits_table_branch_tagged tag_sum tag_first df col a :
  tagged a -> emits quiet tagged (table_branch tag_sum tag_first df col a).
Proof.
  intros H. unfold table_branch.
  destruct col as [c|]; [|now apply emits_ret, tagged_first_numeric_column].
  eapply emits_bind; [apply emits_lift_opt|]. intros v _.
  destruct (negb (is_none v)); apply emits_ret; auto using tagged_with_answer.
Qed.

Lemma emits_linked_file_tagged url page_text col a :
  tagged a -> emits quiet tagged (linked_file_step url page_text col a).
Proof.
  intros H. unfold linked_file_step, linked_file_body.
  destruct (is_none (answer a)); [|now apply emits_ret].
  destruct (List.find _ _); [|now apply emits_ret].
  apply emits_try_except; [|intros e; now apply emits_ret].
  eapply emits_bind; [now apply (emits_fetch_bytes quiet)|]. intros content _.
  repeat match goal with
         | |- emits _ _ (if ?b then _ else _) => destruct b
         end;
    try (now apply emits_ret);
    try (now apply emits_ret, tagged_pdf_branch);
    (eapply emits_bind; [apply emits_lift_opt|]; intros df _;
     now apply emits_table_branch_tagged).
Qed.

Lemma emits_template_tagged template a :
  tagged a -> emits quiet tagged (template_step template a).
Proof.
  intros H. unfold template_step, template_body.
  destruct (is_none (answer a) && truthy_dict template); [|now apply emits_ret].
  destruct template as [payload|]; [|now apply emits_ret].
  destruct (dict_has payload "answer" && is_scalar (dict_get payload "answer"));
    [apply emits_ret, tagged_with_answer|].
  destruct (dict_has payload "url"); [|now apply emits_ret].
  destruct (dict_get_default payload "url" (JStr "")) as [ | | |u| | ];
    try apply emits_raise.
  destruct (is_data_url u); [|now apply emits_ret].
  apply emits_try_except; [|intros e; now apply emits_ret].
  eapply emits_bind; [now apply (emits_fetch_bytes quiet)|]. intros c _.
  destruct (endswith ".csv" u); [|now apply emits_ret].
  eapply emits_bind; [apply emits_lift_opt|]. intros df _.
  now apply emits_ret, tagged_first_numeric_column.
Qed.

Lemma tagged_inline_sum_step page_plain a : tagged a -> tagged (inline_sum_step page_plain a).
Proof.
  intros H. unfold inline_sum_step, inline_sum_body.
  destruct (is_none (answer a)); [|exact H].
  destruct (_ || _); [|exact H].
  destruct (extract_numbers _); [exact H | apply tagged_with_answer].
Qed.

Lemma tagged_decoded_step decoded a : tagged a -> tagged (decoded_step decoded a).
Proof.
  intros H. unfold decoded_step, decoded_body.
  destruct (is_none (answer a) && truthy_str decoded); [|exact H].
  destruct decoded as [d|]; [|exact H].
  assert (Hn : tagged match extract_numbers d with
                      | [] => a
                      | nums => with_answer a (JNum (py_sum nums)) "decoded-sum"
                      end)
    by (destruct (extract_numbers d); [exact H | apply tagged_with_answer]).
  destruct (try_parse_json_from_text d) as [j|]; [|exact Hn].
  destruct (truthy (JObj j) && dict_has j "answer"); [apply tagged_with_answer | exact Hn].
Qed.

Lemma tagged_fallback_step page_plain a : tagged a -> tagged (fallback_step page_plain a).
Proof.
  intros H. unfold fallback_step, fallback_body.
  destruct (is_none (answer a)); [|exact H].
  destruct (extract_numbers _); [exact H | apply tagged_with_answer].
Qed.

Lemma fallback_step_none page_plain a :
  is_none (answer (fallback_step page_plain a)) = true -> extract_numbers page_plain = [].
Proof.
  unfold fallback_step, fallback_body.
  destruct (is_none (answer a)) eqn:E; [|congruence].
  destruct (extract_numbers page_plain); [reflexivity | discriminate].
Qed.

(** What [resolve_answer] returns: the binding of [colname], a tagged
    cascade, and no answer only when the visible text has no number. *)
Lemma resolve_answer_value url page_text page_plain template decoded col :
  emits quiet
    (fun r => fst r = colname_after page_plain col
              /\ tagged (snd r)
              /\ (is_none (answer (snd r)) = true -> extract_numbers page_plain = []))
    (resolve_answer url page_text page_plain template decoded col).
Proof.
  unfold resolve_answer.
  eapply emits_bind; [apply emits_column_sum_value; discriminate|].
  intros [col' a] [Hcol Ha]. cbn [fst snd] in Hcol, Ha.
  eapply emits_bind; [now apply emits_linked_file_tagged|]. intros a2 Ha2.
  eapply emits_bind;
    [apply emits_template_tagged, tagged_inline_sum_step, Ha2|]. intros a4 Ha4.
  apply emits_ret. cbn [fst snd]. split; [exact Hcol|]. split.
  - now apply tagged_fallback_step, tagged_decoded_step.
  - apply fallback_step_none.
Qed.

Lemma resolve_answer_returned url page_text page_plain template decoded col log col' a log' :
  resolve_answer url page_text page_plain template decoded col log = (inr (col', a), log') ->
  col' = colname_after page_plain col
  /\ tagged a
  /\ (is_none (answer a) = true -> extract_numbers page_plain = []).
Proof.
  intros E.
  destruct (resolve_answer_value url page_text page_plain template decoded col log)
    as (evs & _ & _ & Hq).
  rewrite E in Hq. exact (Hq (col', a) eq_refl).
Qed.

(** X6.  The cascade ends without an answer only when the visible text
    of the page has no digit: wherever a digit stands, the final fallback
    answers with the sum of the numbers of the text. *)
Theorem absent_answer_means_no_digit
    url page_text page_plain template decoded col log col' a log' :
  resolve_answer url page_text page_plain template decoded col log = (inr (col', a), log') ->
  is_none (answer a) = true ->
  has_char is_digit page_plain = false.
Proof.
  intros E Hnone.
  destruct (resolve_answer_returned _ _ _ _ _ _ _ _ _ _ E) as (_ & _ & Hn).
  now apply no_number_no_digit, Hn.
Qed.

(** X7.  An answer that is not null never goes without its method: the
    payload built from the result of the cascade then carries the answer
    and a [_meta] object whose [method] is a text, and no note. *)
Theorem answered_payload_names_method
    url page_text page_plain template decoded col log col' a log' secret (u : json) :
  resolve_answer url page_text page_plain template decoded col log = (inr (col', a), log') ->
  is_none (answer a) = false ->
  exists tag,
    meta_method a = Some tag
    /\ build_payload secret u a !! "answer" = Some (answer a)
    /\ build_payload secret u a !! "_meta"
       = Some (JObj {[ "method" := JStr tag; "raw_page_sample" := JNull ]})
    /\ build_payload secret u a !! "note" = None.
Proof.
  intros E Hans.
  destruct (resolve_answer_returned _ _ _ _ _ _ _ _ _ _ E) as (_ & Ht & _).
  destruct (Ht Hans) as [tag Htag]. exists tag.
  unfold build_payload. rewrite Hans, Htag. cbn [opt_json].
  repeat split; now simplify_map_eq.
Qed.

(** X8.  The column name is remembered from pass to pass: after a pass
    that continues, [colname] is the name the column-sum pattern found in
    the visible text of this page, and the binding of the pass before when
    the pattern found none. *)
Theorem colname_binding_persists secret st u page_text page_plain log st' log' :
  current_url st = JStr u ->
  env_render log u = inr (page_text, page_plain) ->
  iteration secret st log = (inr (Next st'), log') ->
  colname st' = colname_after page_plain (colname st).
Proof.
  intros Hu Hr. unfold iteration. rewrite Hu.
  rewrite (bind_ok _ _ _ (page_text, page_plain) (log ++ [EvGoto (JStr u)])%list)
    by (unfold render; now rewrite Hr).
  cbv beta iota. unfold prepare.
  destruct (extract_signals page_text page_plain) as [[decoded template] submit_url].
  rewrite bind_bind.
  destruct (resolve_answer u page_text page_plain template decoded (colname st)
              (log ++ [EvGoto (JStr u)])%list) as [[e|[col a]] log1] eqn:R.
  - rewrite (bind_err _ _ _ _ _ R). discriminate.
  - rewrite (bind_ok _ _ _ _ _ R). cbv beta iota. rewrite bind_ret.
    destruct (resolve_answer_returned _ _ _ _ _ _ _ _ _ _ R) as (-> & _ & _).
    unfold submit.
    destruct (negb (truthy _)).
    + unfold bind. rewrite close_all_log. discriminate.
    + unfold try_except, bind, post.
      destruct (env_post _ _ _) as [e|r].
      * rewrite close_all_log. discriminate.
      * cbv zeta. destruct (truthy (next_url (response_json r))).
        -- intros [= <- _]. reflexivity.
        -- rewrite close_all_log. discriminate.
Qed.

(** X9.  A link is chosen when a file extension stands anywhere in it,
    but its file is read only when the link ends with the extension: a
    link such as [data.csv?dl=1] is fetched and its content is not used,
    the cascade going on without answer and without error note. *)
Theorem linked_file_fetched_but_unread url page_text col a L content log :
  is_none (answer a) = true ->
  List.find has_file_ext (findall href_re (String.length page_text) page_text) = Some L ->
  endswith ".csv" (lower (absolute_link url L)) = false ->
  endswith ".xls" (lower (absolute_link url L)) = false ->
  endswith ".xlsx" (lower (absolute_link url L)) = false ->
  endswith ".pdf" (lower (absolute_link url L)) = false ->
  env_get log (absolute_link url L) = inr content ->
  linked_file_step url page_text col a log
  = (inr a, (log ++ [EvGet (absolute_link url L)])%list).
Proof.
  intros Hnone Hfind Hcsv Hxls Hxlsx Hpdf Hget.
  unfold linked_file_step, linked_file_body. rewrite Hnone, Hfind.
  cbv zeta. rewrite Hcsv, Hxls, Hxlsx, Hpdf. cbn [orb].
  unfold try_except, bind, fetch_bytes. rewrite Hget. reflexivity.
Qed.

(** X10.  A template whose [url] names a pdf or xlsx file has the file
    fetched and left unread, and a failure of that fetch is dropped
    without a note: the step leaves the cascade as it was. *)
Theorem template_file_fetched_but_unread (t : dict) (u : string) a log :
  is_none (answer a) = true ->
  truthy (JObj t) = true ->
  (dict_has t "answer" && is_scalar (dict_get t "answer")) = false ->
  t !! "url" = Some (JStr u) ->
  is_data_url u = true ->
  endswith ".csv" u = false ->
  template_step (Some t) a log = (inr a, (log ++ [EvGet u])%list).
Proof.
  intros Hnone Ht Hans Hurl Hdata Hcsv.
  unfold template_step, template_body.
  rewrite Hnone. cbn [truthy_dict andb]. rewrite Ht.
  assert (Hhas : dict_has t "url" = true)
    by (unfold dict_has; rewrite Hurl; apply bool_decide_eq_true_2; eauto).
  cbn [andb]. rewrite Hans, Hhas.
  unfold dict_get_default. rewrite Hurl.
  change (default (JStr "") (Some (JStr u))) with (JStr u). cbv iota.
  rewrite Hdata, Hcsv.
  unfold try_except, bind, fetch_bytes.
  destruct (env_get log u); reflexivity.
Qed.

End AnswerFacts.

(** ** Closing, and the ends of the chain *)

Section ClosingFacts.
Context {lib : PyLib} {env : Env} {cfg : Config}.

Local Abbreviation keeps_open := (fun e : event => is_close e = false).

Lemma closes_last_ret {A} (fin : A -> bool) (a : A) :
  fin a = false -> closes_last fin (ret a).
Proof.
  intros Hf log. exists []. split; [constructor|].
  cbn. rewrite Hf. now rewrite !app_nil_r.
Qed.

Lemma closes_last_close_all {A} (fin : A -> bool) (a : A) :
  fin a = true -> closes_last fin (close_all ;;; ret a).
Proof.
  intros Hf log. exists []. split; [constructor|].
  unfold bind. rewrite close_all_log. cbn. now rewrite Hf.
Qed.

Lemma closes_last_bind {A B} (Q : A -> Prop) (fin : B -> bool) (c : M A) (k : A -> M B) :
  emits keeps_open Q c -> (forall a, closes_last fin (k a)) ->
  closes_last fin (bind c k).
Proof.
  intros Hc Hk log. destruct (Hc log) as (evs & Hs & HF & _).
  unfold bind. destruct (c log) as [[e|a] log1]; cbn in Hs; subst log1.
  - exists evs. split; [exact HF|]. cbn. now rewrite app_nil_r.
  - destruct (Hk a (log ++ evs)%list) as (body & HB & Hs2).
    exists (evs ++ body)%list. split; [now apply Forall_app|].
    rewrite Hs2. now rewrite <- !app_assoc.
Qed.

Lemma closes_last_try_except {A} (fin : A -> bool) (c : M A) (h : string -> M A) :
  closes_last fin c -> (forall e, closes_last fin (h e)) ->
  closes_last fin (try_except c h).
Proof.
  intros Hc Hh log. destruct (Hc log) as (body & HB & Hs).
  unfold try_except. destruct (c log) as [[e|a] log1]; cbn in Hs; subst log1.
  - destruct (Hh e (log ++ body ++ [])%list) as (body2 & HB2 & Hs2).
    exists (body ++ body2)%list. split; [now apply Forall_app|].
    rewrite Hs2. rewrite app_nil_r. now rewrite <- !app_assoc.
  - exists body. split; [exact HB | reflexivity].
Qed.

Lemma closes_last_submit st col submit_url payload :
  closes_last is_done (submit st col submit_url payload).
Proof.
  unfold submit. destruct (negb (truthy submit_url)).
  - now apply closes_last_close_all.
  - apply closes_last_try_except; [|intros e; now apply closes_last_close_all].
    eapply closes_last_bind with (Q := any).
    + apply (emits_one keeps_open any); [reflexivity | easy].
    + intros r. cbv zeta. destruct (truthy (next_url (response_json r))).
      * now apply closes_last_ret.
      * now apply closes_last_close_all.
Qed.

Lemma closes_last_iteration secret st : closes_last is_done (iteration secret st).
Proof.
  unfold iteration.
  eapply closes_last_bind; [now apply (emits_render keeps_open)|].
  intros [page_text page_plain].
  eapply closes_last_bind; [now apply (emits_prepare keeps_open)|].
  intros [[col payload] submit_url]. apply closes_last_submit.
Qed.

Lemma closes_last_chain_loop deadline secret fuel st :
  closes_last is_result (chain_loop fuel deadline secret st).
Proof.
  revert st. induction fuel as [|fuel IH]; intros st; cbn [chain_loop].
  - now apply closes_last_ret.
  - eapply closes_last_bind; [now apply (emits_loop_test keeps_open)|].
    intros [|]; [|now apply closes_last_close_all].
    intros log. destruct (closes_last_iteration secret st log) as (body & HB & Hs).
    unfold bind. destruct (iteration secret st log) as [[e|[st'|result]] log1];
      cbn in Hs; subst log1.
    + exists body. split; [exact HB | reflexivity].
    + destruct (IH st' (log ++ body ++ [])%list) as (body2 & HB2 & Hs2).
      exists (body ++ body2)%list. split; [now apply Forall_app|].
      rewrite Hs2. rewrite app_nil_r. now rewrite <- !app_assoc.
    + exists body. split; [exact HB | reflexivity].
Qed.

Lemma solve_quiz_chain_json_unfold fuel start secret log :
  solve_quiz_chain_json fuel start secret log =
  let '(r, log') :=
    chain_loop fuel (env_time log + TIMEOUT_SECONDS)%Z secret
      {| current_url := start; last_response := JNull; colname := None |}
      (log ++ opening)%list in
  (r, (log' ++ [EvClose Playwright])%list).
Proof.
  unfold solve_quiz_chain_json, async_with_playwright, now, acquire, emit, bind, opening.
  cbn. now rewrite <- !app_assoc.
Qed.

(** The function of the worker is the one the endpoint starts, at a text. *)
Lemma solve_quiz_chain_json_text fuel start secret :
  solve_quiz_chain_json fuel (JStr start) secret = solve_quiz_chain fuel start secret.
Proof. reflexivity. Qed.


Lemma held_from_keeps_open (r : resource) (body : list event) :
  Forall (fun e => is_close e = false) body -> held_from r true body = true.
Proof.
  induction 1 as [|e body He _ IH]; [reflexivity|].
  destruct e; cbn; try exact IH; [|discriminate].
  now destruct (eq_resource r r0).
Qed.

Lemma held_from_opening (r : resource) (h : bool) : held_from r h opening = true.
Proof. destruct r, h; reflexivity. Qed.

(** Leaving the context manager releases what runs under Playwright. *)
Lemma held_after_exit (r : resource) (l : list event) :
  r <> HttpClient -> held r (l ++ [EvClose Playwright]) = false.
Proof.
  intros Hr. unfold held. rewrite held_from_app. destruct r; cbn; congruence.
Qed.

(** The calls of a startup that fails never create the HTTP client. *)
Lemma held_client_before_start (h : bool) (pre : list event) :
  Forall (fun ev => ev = EvAcquire Browser \/ ev = EvAcquire BrowserContext
                    \/ ev = EvAcquire Page) pre ->
  held_from HttpClient h pre = h.
Proof.
  induction 1 as [|ev pre [->|[->| ->]] _ IH]; cbn; auto.
Qed.

(** X12.  The resources after a run that begins with nothing held.  When
    the chain returns a result, nothing is held.  When it raises,
    Playwright, the browser, its context and the page are not held: the
    context manager has been left, or was never entered.  The HTTP client
    is then still held exactly when the startup had succeeded, that is,
    when the exception came out of the loop: no path closes it. *)
Theorem resources_after_chain {launcher : Launcher} fuel (start : json) secret log :
  (forall res, held res log = false) ->
  let out := solve_quiz_chain_launching fuel start secret log in
  match fst out with
  | inr (Some _) => forall res, held res (snd out) = false
  | inr None => True
  | inl _ =>
      held Playwright (snd out) = false
      /\ held Browser (snd out) = false
      /\ held BrowserContext (snd out) = false
      /\ held Page (snd out) = false
      /\ (held HttpClient (snd out) = true
          <-> fst ((launch Playwright ;;; startup) (log ++ [EvTime])%list) = inr tt)
  end.
Proof.
  intros Hfree. cbv zeta.
  destruct (solve_quiz_chain_launching_unfold fuel start secret log)
    as [(e & l & r & _ & Hs & [[-> ->]|(pre & -> & Hpre & ->)])|[Hs ->]];
    cbn [fst snd].
  - assert (H : forall res, held res (log ++ [EvTime]) = false).
    { intros res. unfold held. rewrite held_from_app. apply Hfree. }
    rewrite !H, Hs. repeat split; discriminate.
  - rewrite !held_after_exit by discriminate.
    repeat split; [|rewrite Hs; discriminate].
    unfold held. rewrite !held_from_app. fold (held HttpClient log). rewrite Hfree.
    cbn. rewrite (held_client_before_start false pre Hpre). discriminate.
  - destruct (closes_last_chain_loop (env_time log + TIMEOUT_SECONDS)%Z secret fuel
                {| current_url := start; last_response := JNull; colname := None |}
                (log ++ opening)%list) as (body & HB & Hl).
    destruct (chain_loop _ _ _ _ _) as [out log1]. cbn in Hl. subst log1.
    cbn [fst snd]. destruct out as [e|[result|]]; [| |exact I].
    + rewrite !held_after_exit by discriminate.
      repeat split; [now rewrite Hs|].
      intros _. rewrite app_nil_r. unfold held. rewrite !held_from_app.
      now rewrite held_from_opening, (held_from_keeps_open _ body HB).
    + intros res. unfold held. rewrite !held_from_app.
      destruct res; destruct (held_from _ _ body); reflexivity.
Qed.


Lemma next_url_non_object (r : response) :
  (forall d, resp_json r <> Some (JObj d)) -> next_url (response_json r) = JNull.
Proof.
  intros H. unfold response_json.
  destruct (resp_json r) as [j|] eqn:E.
  - destruct j as [ | | | | |d]; try reflexivity. now destruct (H d).
  - unfold next_url, dict_get. now simplify_map_eq.
Qed.

(** X14.  The status code of the reply to a post is never read.  A reply
    whose body is no JSON object (no JSON at all, or a list, a text, a
    number) ends the chain as a success whatever its status, with the
    body, or the wrapper of status and text, as final response. *)
Theorem non_object_reply_is_success st col submit_url payload r log :
  truthy submit_url = true ->
  env_post log submit_url payload = inr r ->
  (forall d, resp_json r <> Some (JObj d)) ->
  submit st col submit_url payload log
  = (inr (Done (success_result (response_json r) payload)),
     (log ++ EvPost submit_url payload :: closes)%list).
Proof.
  intros Ht Hp Hr. unfold submit. rewrite Ht. cbn [negb].
  unfold try_except, bind, post. rewrite Hp. cbv zeta.
  rewrite (next_url_non_object r Hr). cbn [truthy].
  rewrite close_all_log. cbn [ret]. now rewrite <- app_assoc.
Qed.

Lemma extract_signals_bare page_text page_plain :
  find_char "{" page_plain = None ->
  find_char "{" page_text = None ->
  findall url_re (String.length page_plain) page_plain = [] ->
  snd (fst (extract_signals page_text page_plain)) = None
  /\ snd (extract_signals page_text page_plain) = JNull.
Proof.
  intros Hp Ht Hu. unfold extract_signals, try_parse_json_from_text, guess_submit_url, search.
  rewrite Hp, Ht, Hu. cbn. split; reflexivity.
Qed.

(** X15.  A page whose visible text shows no URL, and which has no brace
    in its text or markup, has no submit target: the pass posts nothing,
    and if it returns, it ends the chain with the result
    [No submit URL found on page]. *)
Theorem pass_without_target_posts_nothing secret st u page_text page_plain log :
  current_url st = JStr u ->
  env_render log u = inr (page_text, page_plain) ->
  find_char "{" page_plain = None ->
  find_char "{" page_text = None ->
  findall url_re (String.length page_plain) page_plain = [] ->
  exists evs,
    snd (iteration secret st log) = (log ++ evs)%list
    /\ Forall (fun e => is_post e = false) evs
    /\ forall f, fst (iteration secret st log) = inr f ->
         exists p, f = Done (no_submit_result (JStr u) p).
Proof.
  intros Hu Hr Hp Ht Hc.
  destruct (extract_signals_bare page_text page_plain Hp Ht Hc) as [Htpl Hsub].
  unfold iteration.
  rewrite (bind_ok _ _ _ (page_text, page_plain) (log ++ [EvGoto (JStr u)])%list)
    by (unfold render; now rewrite Hu, Hr).
  cbv beta iota.
  assert (Hk : emits (fun e => is_post e = false)
                 (fun f => exists p, f = Done (no_submit_result (JStr u) p))
                 ('(col, answer_payload, submit_url) <~
                    prepare secret st
                      match current_url st with JStr u0 => u0 | _ => EmptyString end
                      page_text page_plain ;
                  submit st col submit_url answer_payload)).
  { unfold prepare.
    destruct (extract_signals page_text page_plain) as [[decoded template] submit_url].
    cbn [fst snd] in Htpl, Hsub. subst template submit_url.
    eapply emits_bind with (Q := fun r => snd r = JNull).
    - eapply emits_bind; [now apply (emits_resolve_answer (fun e => is_post e = false))|].
      intros [col a] _. now apply emits_ret.
    - intros [[col p] s] Hs. cbn [snd] in Hs. subst s.
      unfold submit. cbn [truthy negb].
      eapply emits_bind; [now apply emits_close_all|]. intros _ _.
      apply emits_ret. rewrite Hu. eauto. }
  destruct (Hk (log ++ [EvGoto (JStr u)])%list) as (evs & Hs & HF & Hq).
  exists (EvGoto (JStr u) :: evs). rewrite Hs. rewrite <- app_assoc.
  split; [reflexivity|]. split; [constructor; [reflexivity | exact HF] | exact Hq].
Qed.

End ClosingFacts.

(** ** The submit target *)

Section TargetFacts.
Context {lib : PyLib}.

Lemma span_all (p : ascii -> bool) (s a b : string) :
  span p s = (a, b) -> has_char (fun c => negb (p c)) a = false.
Proof.
  revert a b. induction s as [|c r IH]; intros a b; cbn.
  - now intros [= <- _].
  - destruct (p c) eqn:E.
    + destruct (span p r) as [a0 b0]. intros [= <- _]. cbn.
      rewrite E. cbn. now apply (IH a0 b0).
    + now intros [= <- _].
Qed.

Lemma has_char_app (p : ascii -> bool) (a b : string) :
  has_char p (a ++ b) = has_char p a || has_char p b.
Proof.
  induction a as [|c a IH]; [reflexivity|].
  change (String c a ++ b)%string with (String c (a ++ b)).
  cbn. now rewrite IH, orb_assoc.
Qed.

Lemma startswith_substring (p s : string) :
  startswith p s = true -> substring 0 (String.length p) s = p.
Proof.
  unfold startswith. revert s. induction p as [|c p IH]; intros s.
  - intros _. now destruct s.
  - destruct s as [|d s]; cbn; [discriminate|].
    destruct (ascii_dec c d) as [->|]; [|discriminate].
    intros H. now rewrite (IH s H).
Qed.

Lemma startswith_app (p r : string) : startswith p (p ++ r) = true.
Proof.
  unfold startswith. induction p as [|c p IH]; [now destruct r|].
  change (String c p ++ r)%string with (String c (p ++ r)).
  cbn. now destruct (ascii_dec c c).
Qed.

(** What the URL pattern matches: a scheme and characters of the class. *)
Lemma url_re_shape (s u rest : string) :
  url_re s = Some (u, rest) ->
  (startswith "http://" u || startswith "https://" u) = true
  /\ has_char (fun c => negb (is_url_char c)) u = false.
Proof.
  unfold url_re.
  destruct (startswith "https://" s) eqn:E8.
  - destruct (span is_url_char (drop_str 8 s)) as [body rest'] eqn:Sp.
    destruct body as [|b body']; [discriminate|]. intros [= <- _].
    pose proof (startswith_substring "https://" s E8) as Hsub.
    change (String.length "https://") with 8%nat in Hsub. rewrite Hsub.
    rewrite (startswith_app "https://"), orb_true_r. split; [reflexivity|].
    rewrite has_char_app, (span_all _ _ _ _ Sp). reflexivity.
  - destruct (startswith "http://" s) eqn:E7; [|discriminate].
    destruct (span is_url_char (drop_str 7 s)) as [body rest'] eqn:Sp.
    destruct body as [|b body']; [discriminate|]. intros [= <- _].
    pose proof (startswith_substring "http://" s E7) as Hsub.
    change (String.length "http://") with 7%nat in Hsub. rewrite Hsub.
    rewrite (startswith_app "http://"). split; [reflexivity|].
    rewrite has_char_app, (span_all _ _ _ _ Sp). reflexivity.
Qed.

Lemma guess_is_candidate (page_plain : string) :
  guess_submit_url page_plain = JNull
  \/ exists u, guess_submit_url page_plain = JStr u
               /\ In u (findall url_re (String.length page_plain) page_plain).
Proof.
  unfold guess_submit_url.
  destruct (search url_re page_plain); [|now left].
  cbv zeta.
  destruct (List.find is_submit_like _) as [c|] eqn:F; cbn [opt_json].
  - apply find_some in F. destruct F as [Hin _].
    destruct (negb (truthy (JStr c))); [|right; eauto].
    destruct (findall url_re _ page_plain) as [|c0 cs]; [now left|].
    right. exists c0. split; [reflexivity | now left].
  - cbn [truthy negb].
    destruct (findall url_re _ page_plain) as [|c0 cs]; [now left|].
    right. exists c0. split; [reflexivity | now left].
Qed.

(** X16.  The submit URL guessed from the visible text, when there is one,
    is a text that opens with [http://] or [https://] and holds no white
    space, no quote and no angle bracket. *)
Theorem guessed_submit_url_is_well_formed (page_plain : string) :
  guess_submit_url page_plain = JNull
  \/ exists u, guess_submit_url page_plain = JStr u
               /\ (startswith "http://" u || startswith "https://" u) = true
               /\ has_char (fun c => is_space c || is_quote c
                                     || (code c =? 60)%nat || (code c =? 62)%nat) u = false.
Proof.
  destruct (guess_is_candidate page_plain) as [H|(u & Hu & Hin)]; [now left|].
  right. exists u. split; [exact Hu|].
  assert (HF : Forall (fun u => (startswith "http://" u || startswith "https://" u) = true
                                /\ has_char (fun c => negb (is_url_char c)) u = false)
                 (findall url_re (String.length page_plain) page_plain))
    by (apply findall_Forall; intros s a rest; apply url_re_shape).
  rewrite Forall_forall in HF.
  destruct (HF u (proj2 (list_elem_of_In _ _) Hin)) as [Hs Hc]. split; [exact Hs|].
  rewrite <- Hc. clear. induction u as [|c r IH]; [reflexivity|].
  cbn. rewrite IH. f_equal. unfold is_url_char. now rewrite negb_involutive.
Qed.

(** X17.  A template that carries a [submit] key with a value that is
    false (an empty text, null) and whose [url] is false too discards the
    URL guessed from the page: the pass has no submit target, whatever the
    guess was. *)
Theorem falsy_template_target_discards_guess (j : dict) (v : json) parsed guess :
  truthy (JObj j) = true ->
  has_template_keys j = true ->
  j !! "submit" = Some v ->
  truthy v = false ->
  truthy (dict_get j "url") = false ->
  let '(template, submit_url) := detect_template parsed (Some j) guess in
  template = Some j /\ truthy (final_submit_url template submit_url) = false.
Proof.
  intros Hj Hkeys Hsub Hv Hurl. unfold detect_template. rewrite Hj, Hkeys. cbn [andb].
  split; [reflexivity|].
  assert (Hu : exists w, j !! "url" = Some w).
  { unfold has_template_keys in Hkeys. apply andb_true_iff in Hkeys.
    destruct Hkeys as [_ Hk]. unfold dict_has in Hk.
    apply bool_decide_eq_true in Hk. exact Hk. }
  destruct Hu as [w Hw].
  unfold final_submit_url. rewrite Hj.
  unfold dict_get_default, dict_get in *. rewrite Hsub, Hw in *.
  cbn [default from_option id] in *. unfold py_or. rewrite Hv, Hurl. exact Hurl.
Qed.

End TargetFacts.

(** ** The endpoint *)

Lemma dict_has_true (d : dict) (k : string) : dict_has d k = true <-> is_Some (d !! k).
Proof. unfold dict_has. apply bool_decide_eq_true. Qed.

Lemma has_fields_object (d : dict) :
  has_fields (JObj d) = Some true
  <-> is_Some (d !! "email") /\ is_Some (d !! "secret") /\ is_Some (d !! "url").
Proof.
  unfold has_fields, py_in. rewrite <- !dict_has_true.
  destruct (dict_has d "email"), (dict_has d "secret"), (dict_has d "url");
    split; try discriminate; try easy; intros (? & ? & ?); discriminate.
Qed.

Lemma has_fields_object_total (d : dict) : exists b, has_fields (JObj d) = Some b.
Proof.
  unfold has_fields, py_in.
  destruct (dict_has d "email"), (dict_has d "secret"); eauto.
Qed.

(** The endpoint starts a worker only on an object with the three keys
    and the configured secret. *)
Lemma quiz_entry_started SECRET body reply t :
  quiz_entry SECRET body = (reply, Some t) ->
  exists d u,
    body = Some (JObj d)
    /\ is_Some (d !! "email")
    /\ d !! "secret" = Some (JStr SECRET)
    /\ d !! "url" = Some u
    /\ reply = JSONResponse 200 (JObj {[ "status" := JStr "accepted" ]})
    /\ t = {| task_url := u; task_secret := SECRET |}.
Proof.
  unfold quiz_entry. destruct body as [j|]; [|discriminate].
  destruct (has_fields j) as [[|]|] eqn:HF; try discriminate.
  destruct j as [ | | | | |d]; cbn [py_getitem]; try discriminate.
  apply has_fields_object in HF. destruct HF as (He & _ & _).
  destruct (d !! "secret") as [v|] eqn:Hs; [|discriminate].
  unfold equal_text. destruct v as [ | | |s| | ]; try discriminate.
  destruct (String.eqb_spec s SECRET) as [->|]; [|discriminate].
  destruct (d !! "url") as [u|] eqn:Hu; [|discriminate].
  intros [= <- <-]. exists d, u. repeat split; auto.
Qed.

(** X18.  The endpoint starts a worker exactly for a body that is a JSON
    object with the keys [email], [secret] and [url] whose [secret] is the
    configured text; the reply is then 200 with the status [accepted], and
    the worker gets the [url] of the body, of whatever JSON type, and the
    configured secret.  The value of [email] is never read. *)
Theorem quiz_entry_starts_worker_iff SECRET body reply t :
  quiz_entry SECRET body = (reply, Some t)
  <-> exists d u,
        body = Some (JObj d)
        /\ is_Some (d !! "email")
        /\ d !! "secret" = Some (JStr SECRET)
        /\ d !! "url" = Some u
        /\ reply = JSONResponse 200 (JObj {[ "status" := JStr "accepted" ]})
        /\ t = {| task_url := u; task_secret := SECRET |}.
Proof.
  split; [apply quiz_entry_started|].
  intros (d & u & -> & He & Hs & Hu & -> & ->).
  unfold quiz_entry.
  rewrite (proj2 (has_fields_object d)) by (rewrite Hs, Hu; eauto).
  cbn [py_getitem]. rewrite Hs, Hu. unfold equal_text.
  now rewrite String.eqb_refl.
Qed.

(** X19.  The reply 403 is given exactly to an object that has the three
    keys and a [secret] other than the configured text: a body that lacks
    a key is answered 400 before its secret is looked at. *)
Theorem quiz_entry_forbidden_iff SECRET body :
  fst (quiz_entry SECRET body) = HTTPException 403 "Invalid secret"
  <-> exists d v,
        body = Some (JObj d)
        /\ is_Some (d !! "email")
        /\ is_Some (d !! "url")
        /\ d !! "secret" = Some v
        /\ v <> JStr SECRET.
Proof.
  unfold quiz_entry. split.
  - destruct body as [j|]; [|discriminate].
    destruct (has_fields j) as [[|]|] eqn:HF; try discriminate.
    destruct j as [ | | | | |d]; cbn [py_getitem]; try discriminate.
    apply has_fields_object in HF. destruct HF as (He & _ & Hu).
    destruct (d !! "secret") as [v|] eqn:Hs; [|discriminate].
    intros H. exists d, v. repeat split; auto.
    intros ->. unfold equal_text in H. rewrite String.eqb_refl in H.
    destruct (d !! "url"); discriminate.
  - intros (d & v & -> & He & Hu & Hs & Hv).
    rewrite (proj2 (has_fields_object d)) by (rewrite Hs; eauto).
    cbn [py_getitem]. rewrite Hs. unfold equal_text.
    destruct v as [ | | |s| | ]; try reflexivity.
    destruct (String.eqb_spec s SECRET) as [->|]; [now destruct Hv | reflexivity].
Qed.

(** X20.  A body that is JSON but no object starts no worker and is
    never answered 200 or 403: it is answered 400 for missing fields, or
    the membership test or the subscript raises and nothing handles it (a
    list that holds the three names, a number, null). *)
Theorem quiz_entry_non_object SECRET (j : json) :
  (forall d, j <> JObj d) ->
  snd (quiz_entry SECRET (Some j)) = None
  /\ (fst (quiz_entry SECRET (Some j)) = HTTPException 400 "Missing fields"
      \/ exists exc, fst (quiz_entry SECRET (Some j)) = Unhandled exc).
Proof.
  intros H. unfold quiz_entry.
  destruct (has_fields j) as [[|]|]; cbn; eauto.
  destruct j as [ | | | | |d]; cbn; eauto. now destruct (H d).
Qed.

(** ** The worker behind the endpoint *)

Section MainFacts.
Context {lib : PyLib} {env : Env} {cfg : Config}.

Lemma posts_silent secret (evs : list event) :
  Forall silent evs ->
  forall cur, posts_answer_page secret cur evs /\ page_after cur evs = cur.
Proof.
  induction 1 as [|e evs He _ IH]; intros cur; [now split|].
  destruct e; cbn in *; try apply IH; destruct He.
Qed.

Lemma posts_app secret (a b : list event) cur :
  posts_answer_page secret cur a ->
  posts_answer_page secret (page_after cur a) b ->
  posts_answer_page secret cur (a ++ b).
Proof.
  revert cur. induction a as [|e a IH]; intros cur Ha Hb; [exact Hb|].
  destruct e; cbn in *; try (now apply IH).
  destruct Ha as [Hp Ha]. split; [exact Hp | now apply IH].
Qed.

Lemma answers_silent {A} secret (Q : A -> Prop) (c : M A) :
  emits silent Q c -> answers_pages secret c.
Proof.
  intros Hc log. destruct (Hc log) as (evs & Hs & HF & _).
  exists evs. split; [exact Hs|]. intros cur. now apply posts_silent.
Qed.

(** What a submission adds: nothing but closes, or the post of the
    payload it was given, followed by nothing but closes. *)
Lemma submit_posts st col submit_url payload log :
  exists tail,
    snd (submit st col submit_url payload log) = (log ++ tail)%list
    /\ (Forall silent tail
        \/ exists rest, tail = EvPost submit_url payload :: rest /\ Forall silent rest).
Proof.
  assert (Hc : Forall silent closes) by (repeat constructor).
  unfold submit. destruct (negb (truthy submit_url)).
  - unfold bind. rewrite close_all_log. exists closes. cbn. auto.
  - unfold try_except, bind, post.
    destruct (env_post log submit_url payload) as [e|r].
    + rewrite close_all_log. exists (EvPost submit_url payload :: closes).
      cbn. rewrite <- app_assoc. split; [reflexivity|]. right. eauto.
    + cbv zeta. destruct (truthy (next_url (response_json r))).
      * exists [EvPost submit_url payload]. cbn. split; [reflexivity|]. right.
        exists []. split; [reflexivity | constructor].
      * rewrite close_all_log. exists (EvPost submit_url payload :: closes).
        cbn. rewrite <- app_assoc. split; [reflexivity|]. right. eauto.
Qed.

(** A pass posts, if it posts, the answer to the page it navigated to. *)
Lemma answers_iteration secret st :
  truthy (current_url st) = true -> answers_pages secret (iteration secret st).
Proof.
  intros Hu log. unfold iteration. unfold bind at 1.
  pose proof (render_log (current_url st) log) as Hr.
  destruct (render (current_url st) log) as [[e|[page_text page_plain]] log1];
    cbn [snd] in Hr; subst log1.
  - exists [EvGoto (current_url st)]. split; [reflexivity|]. intros cur. exact I.
  - unfold bind.
    destruct (emits_prepare silent (fun _ => I) secret st
                match current_url st with JStr u => u | _ => EmptyString end
                page_text page_plain (log ++ [EvGoto (current_url st)])%list)
      as (gets & Hs & HF & Hq).
    destruct (prepare _ _ _ _ _ _) as [[e|[[col payload] submit_url]] log2];
      cbn [fst snd] in Hs, Hq; subst log2.
    + exists (EvGoto (current_url st) :: gets). cbn [snd]. rewrite <- app_assoc.
      split; [reflexivity|]. intros cur. cbn. now apply posts_silent.
    + destruct (submit_posts st col submit_url payload
                  ((log ++ [EvGoto (current_url st)]) ++ gets)%list) as (tail & Ht & Hcase).
      exists (EvGoto (current_url st) :: gets ++ tail). rewrite Ht, <- !app_assoc.
      split; [reflexivity|]. intros cur. cbn.
      destruct (posts_silent secret gets HF (Some (current_url st))) as [Hg Hp].
      apply posts_app; [exact Hg|]. rewrite Hp.
      destruct Hcase as [Hsil|(rest & -> & Hsil)].
      * now apply posts_silent.
      * cbn. split; [|now apply posts_silent].
        exists (current_url st). split; [reflexivity|]. split; [exact Hu|].
        exact (Hq _ eq_refl Hu).
Qed.

Lemma answers_chain_loop secret deadline fuel st :
  answers_pages secret (chain_loop fuel deadline secret st).
Proof.
  revert st. induction fuel as [|fuel IH]; intros st log; cbn [chain_loop].
  - exists []. cbn. rewrite app_nil_r. now split.
  - destruct (emits_loop_test silent I deadline st log) as (evs & Hs & HF & Hq).
    unfold bind at 1.
    destruct (loop_test deadline st log) as [[e|go] log1]; cbn [fst snd] in Hs, Hq;
      subst log1.
    + exists evs. split; [reflexivity|]. intros cur. now apply posts_silent.
    + destruct go.
      * destruct (answers_iteration secret st (Hq _ eq_refl eq_refl) (log ++ evs)%list)
          as (evs2 & Hs2 & HP2).
        unfold bind.
        destruct (iteration secret st (log ++ evs)%list) as [[e|[st'|result]] log2];
          cbn [snd] in Hs2; subst log2.
        -- exists (evs ++ evs2)%list. rewrite <- app_assoc. split; [reflexivity|].
           intros cur. apply posts_app; [now apply posts_silent | apply HP2].
        -- destruct (IH st' ((log ++ evs) ++ evs2)%list) as (evs3 & Hs3 & HP3).
           exists (evs ++ evs2 ++ evs3)%list. rewrite Hs3, <- !app_assoc.
           split; [reflexivity|]. intros cur.
           apply posts_app; [now apply posts_silent|].
           apply posts_app; [apply HP2 | apply HP3].
        -- exists (evs ++ evs2)%list. cbn [snd ret]. rewrite <- app_assoc.
           split; [reflexivity|].
           intros cur. apply posts_app; [now apply posts_silent | apply HP2].
      * unfold bind. rewrite close_all_log. cbn [snd ret].
        exists (evs ++ closes)%list. rewrite <- app_assoc. split; [reflexivity|].
        intros cur. apply posts_silent. apply Forall_app. split; [exact HF|].
        repeat constructor.
Qed.

Lemma answers_solve_quiz_chain_json secret fuel (start : json) :
  answers_pages secret (solve_quiz_chain_json fuel start secret).
Proof.
  intros log. rewrite solve_quiz_chain_json_unfold.
  destruct (answers_chain_loop secret (env_time log + TIMEOUT_SECONDS)%Z fuel
              {| current_url := start; last_response := JNull; colname := None |}
              (log ++ opening)%list) as (evs & Hs & HP).
  destruct (chain_loop _ _ _ _ _) as [r log1]. cbn [snd] in Hs. subst log1.
  exists (opening ++ evs ++ [EvClose Playwright])%list. cbn [snd].
  rewrite <- !app_assoc. split; [reflexivity|]. intros cur.
  apply posts_app; [apply posts_silent; repeat constructor|].
  apply posts_app; [apply HP | apply posts_silent; repeat constructor].
Qed.

Lemma answers_run_worker fuel (t : task) :
  answers_pages (task_secret t) (run_worker fuel t).
Proof.
  intros log. unfold run_worker, now. unfold bind at 1. cbn [fst snd].
  destruct (answers_solve_quiz_chain_json (task_secret t) fuel (task_url t)
              (log ++ [EvTime])%list) as (evs & Hs & HP).
  unfold try_except, bind.
  destruct (solve_quiz_chain_json _ _ _ _) as [[e|result] log1]; cbn [snd] in Hs;
    subst log1; cbn [snd ret].
  - exists (EvTime :: evs). rewrite <- app_assoc. split; [reflexivity|].
    intros cur. apply HP.
  - exists (EvTime :: evs ++ [EvTime])%list. rewrite <- !app_assoc.
    split; [reflexivity|]. intros cur. cbn.
    apply posts_app; [apply HP | apply posts_silent; repeat constructor].
Qed.

(** X21.  From the endpoint to the posts: the worker started for an
    accepted request raises nothing, whatever the chain does, and every
    post it makes comes after a navigation and carries the configured
    secret, the configured e-mail and, under [url], the URL of the page it
    navigated to last (the page it answers), which is a true value. *)
Theorem accepted_request_posts_configured_secret SECRET body reply t fuel log :
  quiz_entry SECRET body = (reply, Some t) ->
  exists report evs,
    run_worker fuel t log = (inr report, (log ++ evs)%list)
    /\ posts_answer_page SECRET None evs.
Proof.
  intros H. destruct (quiz_entry_started _ _ _ _ H) as (d & u & _ & _ & _ & _ & _ & ->).
  destruct (answers_run_worker fuel {| task_url := u; task_secret := SECRET |} log)
    as (evs & Hs & HP).
  assert (Hr : exists report, fst (run_worker fuel {| task_url := u; task_secret := SECRET |} log)
                              = inr report).
  { unfold run_worker, now, try_except, bind.
    destruct (solve_quiz_chain_json _ _ _ _) as [[e|result] log1]; cbn; eauto. }
  destruct Hr as [report Hr]. exists report, evs.
  split; [|exact (HP None)].
  destruct (run_worker _ _ log) as [r l]. cbn in Hs, Hr. now subst.
Qed.

End MainFacts.

(** ** The anatomy of a pass *)

Section PassFacts.
Context {lib : PyLib} {env : Env} {cfg : Config}.

Lemma submit_events st col submit_url payload log :
  exists tail,
    snd (submit st col submit_url payload log) = (log ++ tail)%list
    /\ (tail = [] \/ tail = closes
        \/ exists u p, tail = [EvPost u p] \/ tail = EvPost u p :: closes).
Proof.
  unfold submit. destruct (negb (truthy submit_url)).
  - unfold bind. rewrite close_all_log. exists closes. cbn. auto.
  - unfold try_except, bind, post.
    destruct (env_post log submit_url payload) as [e|r].
    + rewrite close_all_log. exists (EvPost submit_url payload :: closes).
      cbn. rewrite <- app_assoc. split; [reflexivity|]. right. right. eauto.
    + cbv zeta. destruct (truthy (next_url (response_json r))).
      * exists [EvPost submit_url payload]. cbn. split; [reflexivity|]. right. right. eauto.
      * rewrite close_all_log. exists (EvPost submit_url payload :: closes).
        cbn. rewrite <- app_assoc. split; [reflexivity|]. right. right. eauto.
Qed.

(** X22.  One pass is one navigation, then fetches of files, then at most
    one post, then the closes if the chain ends there: a submission is
    never repeated, and nothing is fetched or visited after it. *)
Theorem pass_posts_at_most_once secret st log :
  exists gets tail,
    snd (iteration secret st log)
    = (log ++ EvGoto (current_url st) :: gets ++ tail)%list
    /\ Forall (fun e => exists u, e = EvGet u) gets
    /\ (tail = [] \/ tail = closes
        \/ exists u p, tail = [EvPost u p] \/ tail = EvPost u p :: closes).
Proof.
  unfold iteration. unfold bind at 1.
  pose proof (render_log (current_url st) log) as Hr.
  destruct (render (current_url st) log) as [[e|[page_text page_plain]] log1];
    cbn [snd] in Hr; subst log1.
  - exists [], []. cbn. split; [reflexivity|]. split; [constructor | now left].
  - unfold bind.
    destruct (emits_prepare (fun e => exists u, e = EvGet u) (fun u => ex_intro _ u eq_refl)
                secret st
                match current_url st with JStr u => u | _ => EmptyString end
                page_text page_plain (log ++ [EvGoto (current_url st)])%list)
      as (gets & Hs & HF & _).
    destruct (prepare _ _ _ _ _ _) as [[e|[[col payload] submit_url]] log2];
      cbn [snd] in Hs; subst log2.
    + exists gets, []. cbn [snd]. rewrite app_nil_r, <- app_assoc.
      split; [reflexivity|]. split; [exact HF | now left].
    + destruct (submit_events st col submit_url payload
                  ((log ++ [EvGoto (current_url st)]) ++ gets)%list) as (tail & Ht & Hcase).
      exists gets, tail. rewrite Ht, <- !app_assoc.
      split; [reflexivity|]. split; [exact HF | exact Hcase].
Qed.

End PassFacts.

(** ** The further properties on concrete inputs *)

Module Checks.
Import Reference Scenarios Cases.

(** X2 on a short block. *)
Lemma decode_base64_block_short_witness :
  (String.length "aGVsbG8gd29ybGQ=" < 100)%nat
  /\ @decode_base64_block lib "aGVsbG8gd29ybGQ=" = None.
Proof.
  assert (H : (String.length "aGVsbG8gd29ybGQ=" < 100)%nat) by (vm_compute; lia).
  split; [exact H | exact (@decode_base64_block_short lib _ H)].
Defined.

(** X3 on a header in capitals, where [value] finds the column [VALUE],
    and on a table with two columns labelled [v], where the sum raises. *)
Lemma sum_dataframe_column_case_insensitive_witness :
  Forall is_text_label (fst <$> capitals_table)
  /\ NoDup (fst <$> capitals_table)
  /\ (exists q, @sum_dataframe_column lib capitals_table "value" = Some (JNum q))
  /\ Forall is_text_label (fst <$> twin_table)
  /\ @sum_dataframe_column lib twin_table "v" = None.
Proof.
  assert (H : Forall is_text_label (fst <$> capitals_table)) by (repeat constructor).
  assert (Hd : NoDup (fst <$> capitals_table)).
  { apply NoDup_cons. split; [|apply NoDup_singleton].
    intros Hin. apply elem_of_cons in Hin. destruct Hin as [Hin|Hin]; [discriminate|].
    inversion Hin. }
  assert (Ht : Forall is_text_label (fst <$> twin_table)) by (repeat constructor).
  split; [exact H|]. split; [exact Hd|]. split; [|split; [exact Ht|]].
  - apply (proj2 (proj1 (proj2 (@sum_dataframe_column_case_insensitive lib capitals_table
                                  "value" H)) Hd)).
    exists "VALUE". split; [|reflexivity].
    apply list_elem_of_further, list_elem_of_here.
  - apply (proj2 (proj2 (@sum_dataframe_column_case_insensitive lib twin_table "v" Ht))).
    vm_compute. lia.
Defined.

(** X4 on a table without header row. *)
Lemma sum_dataframe_column_integer_label_witness :
  @sum_dataframe_column lib headless_table "value" = None.
Proof.
  apply (@sum_dataframe_column_integer_label lib headless_table "value" 0).
  - intros H. cbn in H.
    apply elem_of_cons in H. destruct H as [H|H]; [discriminate|].
    apply elem_of_cons in H. destruct H as [H|H]; [discriminate|].
    inversion H.
  - apply list_elem_of_here.
Defined.

(** X5 on a text with a prefix before the object. *)
Lemma try_parse_json_reads_brace_texts_only_witness :
  @try_parse_json_from_text lib ("Template: " ++ submit_only_plain)
  = @try_parse_json_from_text brace_lib ("Template: " ++ submit_only_plain).
Proof.
  apply (try_parse_json_reads_brace_texts_only lib brace_lib).
  intros r. reflexivity.
Defined.

(** X6 on a page without digit. *)
Lemma absent_answer_means_no_digit_witness :
  @resolve_answer lib unreachable_world "https://x/q1" empty_plain empty_plain
    None None None [] = (inr (None, no_answer), [])
  /\ has_char is_digit empty_plain = false.
Proof.
  assert (E : @resolve_answer lib unreachable_world "https://x/q1" empty_plain empty_plain
                None None None [] = (inr (None, no_answer), []))
    by (vm_compute; reflexivity).
  split; [exact E|].
  exact (@absent_answer_means_no_digit lib unreachable_world _ _ _ _ _ _ _ _ _ _ E eq_refl).
Defined.

(** X7 on the quiz page: the answer 15 goes with its method. *)
Lemma answered_payload_names_method_witness :
  let a := {| answer := JNum 15; meta_method := Some "sum-inline-numbers";
              meta_file_error := None |} in
  @resolve_answer lib unreachable_world "https://x/q1" quiz_markup quiz_plain
    None None None [] = (inr (None, a), [])
  /\ exists tag,
       meta_method a = Some tag
       /\ @build_payload config "s3cret" (JStr "https://x/q1") a !! "answer" = Some (answer a)
       /\ @build_payload config "s3cret" (JStr "https://x/q1") a !! "_meta"
          = Some (JObj {[ "method" := JStr tag; "raw_page_sample" := JNull ]})
       /\ @build_payload config "s3cret" (JStr "https://x/q1") a !! "note" = None.
Proof.
  intros a.
  assert (E : @resolve_answer lib unreachable_world "https://x/q1" quiz_markup quiz_plain
                None None None [] = (inr (None, a), []))
    by (vm_compute; reflexivity).
  split; [exact E|].
  exact (@answered_payload_names_method lib unreachable_world config
           _ _ _ _ _ _ _ _ _ _ "s3cret" (JStr "https://x/q1") E eq_refl).
Defined.

(** X8 on a page that names a column: the name found is bound in the
    state the next pass starts from. *)
Lemma colname_binding_persists_witness :
  let out := @iteration lib column_world config "s3cret" start [] in
  let next := {| current_url := JStr "https://x/q-b";
                 last_response := JObj {[ "url" := JStr "https://x/q-b" ]};
                 colname := Some "e" |} in
  out = (inr (Next next), snd out)
  /\ colname next = colname_after column_plain (colname start).
Proof.
  intros out next.
  assert (E : out = (inr (Next next), snd out)) by (vm_compute; reflexivity).
  split; [exact E|].
  exact (@colname_binding_persists lib column_world config "s3cret" start "https://x/q1"
           column_plain column_plain [] next (snd out) eq_refl eq_refl E).
Defined.

(** X9 on a link with a query string. *)
Lemma linked_file_fetched_but_unread_witness :
  @linked_file_step lib query_world "https://x/q1" query_markup None no_answer []
  = (inr no_answer,
     ([] ++ [EvGet (@absolute_link lib "https://x/q1" "https://x/data.csv?dl=1")])%list).
Proof.
  apply (@linked_file_fetched_but_unread lib query_world "https://x/q1" query_markup None
           no_answer "https://x/data.csv?dl=1" csv_file []);
    vm_compute; reflexivity.
Defined.

(** X10 on a template that names a pdf file no server has. *)
Lemma template_file_fetched_but_unread_witness :
  @template_step lib unreachable_world (Some pdf_template) no_answer []
  = (inr no_answer, ([] ++ [EvGet "https://x/data.pdf"])%list).
Proof.
  apply (@template_file_fetched_but_unread lib unreachable_world pdf_template
           "https://x/data.pdf" no_answer []);
    vm_compute; reflexivity.
Defined.

(** X12 on a machine without a browser, where the run raises before the
    HTTP client exists, and on a start URL that cannot be reached, where
    the run raises with the client held. *)
Lemma resources_after_chain_witness :
  (forall res, held res [] = false)
  /\ (let out := @solve_quiz_chain_launching lib unreachable_world config no_browser
                   3 (JStr "https://x/q1") "s3cret" [] in
      fst out = inl "BrowserType.launch: Executable doesn't exist"
      /\ held HttpClient (snd out) = false)
  /\ (let out := @solve_quiz_chain_launching lib unreachable_world config always_starts
                   3 (JStr "https://x/q1") "s3cret" [] in
      match fst out with
      | inr (Some _) => forall res, held res (snd out) = false
      | inr None => True
      | inl _ =>
          held Playwright (snd out) = false
          /\ held Browser (snd out) = false
          /\ held BrowserContext (snd out) = false
          /\ held Page (snd out) = false
          /\ (held HttpClient (snd out) = true
              <-> fst ((@launch always_starts Playwright ;;; @startup always_starts)
                         ([] ++ [EvTime])%list) = inr tt)
      end).
Proof.
  assert (H : forall res, held res [] = false) by (intros res; reflexivity).
  split; [exact H|]. split; [vm_compute; split; reflexivity|].
  exact (@resources_after_chain lib unreachable_world config always_starts
           3 (JStr "https://x/q1") "s3cret" [] H).
Defined.


(** X14 on a server that answers 500 with a plain text. *)
Lemma non_object_reply_is_success_witness :
  @submit failing_world start None (JStr "https://x/submit") ∅ []
  = (inr (Done (success_result (response_json server_error) ∅)),
     ([] ++ EvPost (JStr "https://x/submit") ∅ :: closes)%list).
Proof.
  apply (@non_object_reply_is_success failing_world start None (JStr "https://x/submit")
           ∅ server_error []).
  - reflexivity.
  - reflexivity.
  - intros d. discriminate.
Defined.

(** X15 on a page that says hello. *)
Lemma pass_without_target_posts_nothing_witness :
  exists evs,
    snd (@iteration lib bare_world config "s3cret" start []) = ([] ++ evs)%list
    /\ Forall (fun e => is_post e = false) evs
    /\ forall f, fst (@iteration lib bare_world config "s3cret" start []) = inr f ->
         exists p, f = Done (no_submit_result (JStr "https://x/q1") p).
Proof.
  apply (@pass_without_target_posts_nothing lib bare_world config "s3cret" start
           "https://x/q1" "<p>Hello</p>" "Hello" []);
    vm_compute; reflexivity.
Defined.

(** X17 on a template with blank targets. *)
Lemma falsy_template_target_discards_guess_witness :
  let '(template, submit_url) :=
    @detect_template lib None (Some blank_template) (JStr "https://x/submit") in
  template = Some blank_template
  /\ truthy (final_submit_url template submit_url) = false.
Proof.
  apply (@falsy_template_target_discards_guess lib blank_template (JStr "") None
           (JStr "https://x/submit"));
    vm_compute; reflexivity.
Defined.

(** X20 on a list that holds the three names: the subscript raises. *)
Lemma quiz_entry_non_object_witness :
  snd (quiz_entry "s3cret" (Some names_body)) = None
  /\ (fst (quiz_entry "s3cret" (Some names_body)) = HTTPException 400 "Missing fields"
      \/ exists exc, fst (quiz_entry "s3cret" (Some names_body)) = Unhandled exc).
Proof.
  apply (quiz_entry_non_object "s3cret" names_body).
  intros d. discriminate.
Defined.

(** X21 on an accepted request and the two pages of the chain. *)
Lemma accepted_request_posts_configured_secret_witness :
  exists report evs,
    @run_worker lib chain_world config 5
      {| task_url := JStr "https://x/q1"; task_secret := "s3cret" |} []
    = (inr report, ([] ++ evs)%list)
    /\ @posts_answer_page config "s3cret" None evs.
Proof.
  apply (@accepted_request_posts_configured_secret lib chain_world config "s3cret"
           (Some good_body) (JSONResponse 200 (JObj {[ "status" := JStr "accepted" ]}))
           {| task_url := JStr "https://x/q1"; task_secret := "s3cret" |} 5 []).
  vm_compute. reflexivity.
Defined.

End Checks.
